(** * Mood2Music front end: the components of [src/CameraBox.tsx]

    A shallow embedding of [App] and of the helpers above it
    ([toSpotifyEmbed], [clamp01], [MiniChart], [updateResults],
    [analyzeText], [analyzeImagesBlobs], the camera handlers,
    [filteredList] and the initialiser of the history) and of the
    component [CameraBox].

    - A number is an IEEE 754 binary64 value, in Rocq's executable
      specification of floating point ([SpecFloat], precision 53, maximal
      exponent 1024).
    - A string is a byte string, read as UTF-8.
    - What reaches the code untyped (the parsed body [j : any] of a
      response, the stored history) is a [value].
    - A JavaScript exception is the [Throw] case of [result]; a handler
      runs in [Handler], over the [useState] cells and a log of the
      requests it sends.
    - The camera is a log of media events (streams handed out, tracks
      stopped, frames drawn) and a record [Devices] of what the browser
      answers.
    - The host functions whose full definition is a standard of its own
      ([toLowerCase], [Number] on strings, [new URL], [JSON.parse]), the
      service and the clock are variables of [Section App]; the module
      [Reference] gives plain instances of them for concrete runs.

    The file has the definitions of the language level first, then the
    tables, the chart and the state, the reference host, the component
    with its properties, and concrete runs at the end. *)

From Stdlib Require Import List String Ascii Bool Arith ZArith Lia.
From Stdlib Require Import Numbers.DecimalString Numbers.DecimalNat.

From Stdlib Require Import Floats.SpecFloat.
From Stdlib Require Import Sorting.Sorted Sorting.Permutation.
Import ListNotations.
Open Scope string_scope.
Set Warnings "-register-all".

(** ** Exceptions *)

Inductive exn : Type :=
| TypeError
| SyntaxError
| NetworkError.

Inductive result (A : Type) : Type :=
| Ok (a : A)
| Throw (e : exn).
Arguments Ok {A} a.
Arguments Throw {A} e.

Definition bind {A B : Type} (r : result A) (k : A -> result B) : result B :=
  match r with
  | Ok a => k a
  | Throw e => Throw e
  end.

(** [try { body } catch { handler }] *)
Definition try_catch {A : Type} (body : result A) (handler : exn -> result A)
  : result A :=
  match body with
  | Ok a => Ok a
  | Throw e => handler e
  end.

Declare Scope js_scope.
Delimit Scope js_scope with js.
Notation "x <- c ;; k" := (bind c (fun x => k))
  (at level 61, c at next level, right associativity) : js_scope.

(** ** Strings *)

(** [s.startsWith(p)] *)
Fixpoint startsWith (s p : string) {struct p} : bool :=
  match p with
  | EmptyString => true
  | String c p' =>
      match s with
      | EmptyString => false
      | String d s' => Ascii.eqb c d && startsWith s' p'
      end
  end.

(** [s.includes(k)] *)
Fixpoint includes (s k : string) : bool :=
  if startsWith s k then true
  else match s with
       | EmptyString => false
       | String _ s' => includes s' k
       end.

(** [s.split(sep)] for a separator of one character, the only form the
    source uses ([split("/")] and [split("?")]). *)
Fixpoint split (s : string) (sep : ascii) : list string :=
  match s with
  | EmptyString => [EmptyString]
  | String c s' =>
      if Ascii.eqb c sep then EmptyString :: split s' sep
      else match split s' sep with
           | piece :: pieces => String c piece :: pieces
           | [] => [String c EmptyString]
           end
  end.

(** [Boolean(s)] for a string: the empty string is the only falsy one. *)
Definition Boolean_string (s : string) : bool :=
  match s with
  | EmptyString => false
  | String _ _ => true
  end.

(** The character [c] occurs in [s]. *)
Fixpoint occurs (c : ascii) (s : string) : bool :=
  match s with
  | EmptyString => false
  | String d s' => Ascii.eqb d c || occurs c s'
  end.

Fixpoint string_rev (s : string) : string :=
  match s with
  | EmptyString => EmptyString
  | String c s' => string_rev s' ++ String c EmptyString
  end.

Fixpoint drop (n : nat) (s : string) : string :=
  match n, s with
  | S n', String _ s' => drop n' s'
  | _, _ => s
  end.

(** The string of the given bytes. *)
Fixpoint bytes (codes : list nat) : string :=
  match codes with
  | [] => EmptyString
  | n :: codes' => String (ascii_of_nat n) (bytes codes')
  end.

(** The white space and line terminators that [trim] removes, in UTF-8:
    U+0009..U+000D, U+0020, U+00A0, U+1680, U+2000..U+200A, U+2028, U+2029,
    U+202F, U+205F, U+3000 and U+FEFF. *)
Definition white_space : list string :=
  map bytes
    [ [9]; [10]; [11]; [12]; [13]; [32];
      [194; 160];
      [225; 154; 128];
      [226; 128; 128]; [226; 128; 129]; [226; 128; 130]; [226; 128; 131];
      [226; 128; 132]; [226; 128; 133]; [226; 128; 134]; [226; 128; 135];
      [226; 128; 136]; [226; 128; 137]; [226; 128; 138];
      [226; 128; 168]; [226; 128; 169]; [226; 128; 175];
      [226; 129; 159];
      [227; 128; 128];
      [239; 187; 191] ].

(** Removes one leading token of [tokens], if [s] starts with one. *)
Fixpoint strip (tokens : list string) (s : string) : option string :=
  match tokens with
  | [] => None
  | t :: tokens' => if startsWith s t then Some (drop (String.length t) s)
                    else strip tokens' s
  end.

Fixpoint strip_all (fuel : nat) (tokens : list string) (s : string) : string :=
  match fuel with
  | O => s
  | S fuel' => match strip tokens s with
               | Some s' => strip_all fuel' tokens s'
               | None => s
               end
  end.

(** [s.trimStart()]; a token has at least one byte, so [length s] rounds
    are enough. *)
Definition trimStart (s : string) : string :=
  strip_all (String.length s) white_space s.

(** [s.trimEnd()] *)
Definition trimEnd (s : string) : string :=
  string_rev (strip_all (String.length s) (map string_rev white_space)
                        (string_rev s)).

(** [s.trim()] *)
Definition trim (s : string) : string := trimEnd (trimStart s).

(** [s] is made of white space only (or is empty). *)
Inductive blank : string -> Prop :=
| blank_empty : blank EmptyString
| blank_space (t s : string) : In t white_space -> blank s -> blank (t ++ s).

(** Lower case of the letters A..Z, the other bytes unchanged. *)
Definition ascii_lower_char (c : ascii) : ascii :=
  let n := nat_of_ascii c in
  if (65 <=? n)%nat && (n <=? 90)%nat then ascii_of_nat (n + 32) else c.

Fixpoint ascii_lower (s : string) : string :=
  match s with
  | EmptyString => EmptyString
  | String c s' => String (ascii_lower_char c) (ascii_lower s')
  end.

(** Every byte of [s] is below 128: [s] is plain ASCII. *)
Fixpoint ascii_only (s : string) : bool :=
  match s with
  | EmptyString => true
  | String c s' => (nat_of_ascii c <? 128)%nat && ascii_only s'
  end.

(** ** Numbers

    A JavaScript number is an IEEE 754 binary64 value. *)

Definition number : Type := spec_float.

Definition prec : Z := 53.
Definition emax : Z := 1024.

Definition NaN : number := S754_nan.

(** The number denoted by an integer literal. *)
Definition num (z : Z) : number := binary_normalize prec emax z 0 false.

Definition mul (a b : number) : number := SFmul prec emax a b.
Definition sub (a b : number) : number := SFsub prec emax a b.

(** [a < b] and [a <= b]; both are false when an operand is [NaN]. *)
Definition ltb (a b : number) : bool := SFltb a b.
Definition leb (a b : number) : bool := SFleb a b.

Definition is_nan (a : number) : bool :=
  match a with
  | S754_nan => true
  | _ => false
  end.

(** The values the arithmetic produces: mantissa and exponent in range. *)
Definition valid (a : number) : bool := valid_binary prec emax a.

(** The least exponent of a binary64 number. *)
Definition emin : Z := -1074.

(** A number as a JSON text can give it: in range and not [NaN]. *)
Definition proper (a : number) : bool := valid a && negb (is_nan a).

(** [Boolean(n)]: [NaN], [+0] and [-0] are the falsy numbers. *)
Definition Boolean_number (n : number) : bool :=
  match n with
  | S754_nan | S754_zero _ => false
  | _ => true
  end.

(** [Math.min(a, b)]: [NaN] if either is, and [-0] below [+0]. *)
Definition Math_min (a b : number) : number :=
  match SFcompare a b with
  | None => NaN
  | Some Lt => a
  | Some Gt => b
  | Some Eq => match a with
               | S754_zero true => a
               | _ => b
               end
  end.

(** [Math.max(a, b)]: [NaN] if either is, and [+0] above [-0]. *)
Definition Math_max (a b : number) : number :=
  match SFcompare a b with
  | None => NaN
  | Some Lt => b
  | Some Gt => a
  | Some Eq => match a with
               | S754_zero true => b
               | _ => a
               end
  end.

(** [Math.round(x)]: the nearest integer, a tie going towards +infinity;
    a negative argument that rounds to zero gives [-0]. *)
Definition Math_round (x : number) : number :=
  match x with
  | S754_finite s m e =>
      if (0 <=? e)%Z then x
      else
        let scale := Z.pow 2 (- e) in
        let q := Z.div (Zpos m) scale in
        let r := Z.modulo (Zpos m) scale in
        if s then
          (* x = -(q + r/scale) *)
          let n := if (scale <? 2 * r)%Z then (q + 1)%Z else q in
          binary_normalize prec emax (- n) 0 true
        else
          let n := if (scale <=? 2 * r)%Z then (q + 1)%Z else q in
          binary_normalize prec emax n 0 false
  | _ => x
  end.

(** ** Untyped values

    What [res.json()] and [JSON.parse] hand to the code.  An object is the
    list of its own properties in enumeration order.  [VBuiltin] stands for
    the functions and objects a property lookup can reach on
    [Object.prototype]; none of them comes out of a JSON text. *)

Inductive value : Type :=
| VUndefined
| VNull
| VBool (b : bool)
| VNum (n : number)
| VStr (s : string)
| VArr (items : list value)
| VObj (fields : list (string * value))
| VBuiltin (name : string).

(** [Boolean(v)] *)
Definition truthy (v : value) : bool :=
  match v with
  | VUndefined | VNull => false
  | VBool b => b
  | VNum n => Boolean_number n
  | VStr s => Boolean_string s
  | VArr _ | VObj _ | VBuiltin _ => true
  end.

(** [a || b] *)
Definition or_else (a b : value) : value := if truthy a then a else b.

Fixpoint assoc {A : Type} (key : string) (l : list (string * A)) : option A :=
  match l with
  | [] => None
  | (k, v) :: l' => if String.eqb k key then Some v else assoc key l'
  end.

(** The property names every object inherits from [Object.prototype]. *)
Definition Object_prototype : list string :=
  [ "constructor"; "__defineGetter__"; "__defineSetter__"; "hasOwnProperty";
    "__lookupGetter__"; "__lookupSetter__"; "isPrototypeOf";
    "propertyIsEnumerable"; "toString"; "valueOf"; "__proto__";
    "toLocaleString" ].

Definition inherited (key : string) : value :=
  if existsb (String.eqb key) Object_prototype then VBuiltin key
  else VUndefined.

(** [o[key]] for a plain object given by its own properties. *)
Definition lookup (fields : list (string * value)) (key : string) : value :=
  match assoc key fields with
  | Some v => v
  | None => inherited key
  end.

(** [j.key] for the response fields the source reads ([mood], [emoji],
    [confidence], [playlist], [probs], [title]): reading a property of
    [null] or [undefined] throws; arrays and primitives have no property
    of these names. *)
Definition get (j : value) (key : string) : result value :=
  match j with
  | VUndefined | VNull => Throw TypeError
  | VObj fields => Ok (lookup fields key)
  | _ => Ok VUndefined
  end.

(** [v?.title] *)
Definition opt_title (v : value) : value :=
  match v with
  | VObj fields => lookup fields "title"
  | _ => VUndefined
  end.

(** [p?.[0]?.title]: the first element of an array, the property ["0"] of
    an object; a string's first character has no [title]. *)
Definition first_title (p : value) : value :=
  match p with
  | VArr (x :: _) => opt_title x
  | VObj fields => opt_title (lookup fields "0")
  | _ => VUndefined
  end.

(** [Array.isArray(v) ? v : []] *)
Definition array_or_empty (v : value) : list value :=
  match v with
  | VArr items => items
  | _ => []
  end.

(** ** Static tables *)

Definition EMOJI : list (string * value) :=
  [ ("happy", VStr "😃"); ("positive", VStr "😃"); ("excited", VStr "🔥");
    ("calm", VStr "😴"); ("romantic", VStr "💖"); ("lonely", VStr "😔");
    ("motivated", VStr "💪"); ("sad", VStr "😢"); ("angry", VStr "😡");
    ("fear", VStr "😨"); ("surprise", VStr "😲"); ("disgust", VStr "🤢");
    ("neutral", VStr "😐") ].

Definition moodColor (mood : string) : string :=
  if String.eqb mood "happy" || String.eqb mood "positive"
     || String.eqb mood "excited" then "#27d17f"
  else if String.eqb mood "angry" then "#ff6b6b"
  else if String.eqb mood "sad" then "#6ca3ff"
  else if String.eqb mood "surprise" then "#ffb84d"
  else if String.eqb mood "fear" then "#ff7ab6"
  else if String.eqb mood "disgust" then "#88d36f"
  else if String.eqb mood "romantic" then "#ff70a6"
  else if String.eqb mood "calm" then "#7bdff2"
  else if String.eqb mood "lonely" then "#a0a3b1"
  else if String.eqb mood "motivated" then "#5ee07f"
  else "#aab0ff".

Definition MOOD_GRADIENT : list (string * value) :=
  [ ("happy", VStr "linear-gradient(-45deg,#ffd86f,#fc6c8f,#6a85f1,#72edf2)");
    ("excited", VStr "linear-gradient(-45deg,#ff7eb3,#ff758c,#ff6a88,#ff99ac)");
    ("calm", VStr "linear-gradient(-45deg,#142850,#27496d,#0c7b93,#00a8cc)");
    ("romantic", VStr "linear-gradient(-45deg,#ffafbd,#ffc3a0,#ff9a9e,#fecfef)");
    ("lonely", VStr "linear-gradient(-45deg,#434343,#2c3e50,#3a6073,#16222a)");
    ("motivated", VStr "linear-gradient(-45deg,#00c6ff,#0072ff,#1a2980,#26d0ce)");
    ("sad", VStr "linear-gradient(-45deg,#2c3e50,#4ca1af,#2b5876,#4e4376)");
    ("angry", VStr "linear-gradient(-45deg,#ff512f,#dd2476,#ff5f6d,#ffc371)");
    ("fear", VStr "linear-gradient(-45deg,#232526,#414345,#000000,#434343)");
    ("surprise", VStr "linear-gradient(-45deg,#ffe259,#ffa751,#f6d365,#fda085)");
    ("disgust", VStr "linear-gradient(-45deg,#56ab2f,#a8e063,#76b852,#8dc26f)");
    ("neutral", VStr "linear-gradient(-45deg,#0b0b12,#121225,#171733,#10101a)") ].

(** The background the effect on [mood] sets:
    [MOOD_GRADIENT[mood] || MOOD_GRADIENT["neutral"]]. *)
Definition background (mood : string) : value :=
  or_else (lookup MOOD_GRADIENT mood) (lookup MOOD_GRADIENT "neutral").

(** ** The confidence chart *)

(** [clamp01]: [n || 0] first, so [NaN] becomes [0]. *)
Definition clamp01 (n : number) : number :=
  Math_max (num 0) (Math_min (num 1) (if Boolean_number n then n else num 0)).

(** [Probs = Record<string, number>], as the list [Object.entries] gives. *)
Definition Probs : Type := list (string * number).

(** [Array.prototype.sort(cmp)].  The sort is stable; with a consistent
    comparator every engine returns the same array, the one this insertion
    builds: an element moves behind the ones the comparator places
    strictly before it. *)
Fixpoint insert_by {A : Type} (cmp : A -> A -> number) (x : A) (l : list A)
  : list A :=
  match l with
  | [] => [x]
  | y :: l' => if ltb (num 0) (cmp x y) then y :: insert_by cmp x l'
               else x :: l
  end.

Definition sort_by {A : Type} (cmp : A -> A -> number) (l : list A) : list A :=
  fold_right (insert_by cmp) [] l.

(** One row of the chart: the label, the percentage shown (also the width
    of the bar) and the colour of the bar. *)
Record Bar : Type := {
  bar_label : string;
  bar_percent : number;
  bar_color : string
}.

Definition percent (v : number) : number := Math_round (mul (clamp01 v) (num 100)).

(** The comparator of the chart, [(a, b) => b[1] - a[1]]. *)
Definition by_probability (a b : string * number) : number :=
  sub (snd b) (snd a).

Definition chart_entries (probs : Probs) : list (string * number) :=
  firstn 6 (sort_by by_probability probs).

Definition bar_of (kv : string * number) : Bar :=
  {| bar_label := fst kv;
     bar_percent := percent (snd kv);
     bar_color := moodColor (fst kv) |}.

(** [MiniChart]: [None] is the [null] it returns without [probs]. *)
Definition MiniChart (probs : option Probs) : option (list Bar) :=
  match probs with
  | None => None
  | Some p => Some (map bar_of (chart_entries p))
  end.

(** The entry [a] may stand before [b]: its probability is at least
    that of [b]. *)
Definition above (a b : string * number) : Prop := leb (snd b) (snd a) = true.

(** Entries in descending order of probability: each one is at least
    every later one. *)
Definition descending (entries : list (string * number)) : Prop :=
  StronglySorted above entries.

(** The entries all carry proper numbers. *)
Definition proper_entries (p : Probs) : Prop :=
  Forall (fun kv => proper (snd kv) = true) p.

(** ** Component state *)

Module Tab.
(** [Tab], also the type of [HistoryRow["from"]] *)
Inductive t : Type := camera | upload | text.
End Tab.

Inductive Mode : Type := all | focus | chill | workout.

Module HistoryRow.
(** [HistoryRow] *)
Record t : Type := {
  when : string;
  mood : string;
  emoji : value;
  confidence : number;
  from : Tab.t;
  title : value
}.
End HistoryRow.

(** The [useState] cells of [App]; [playlist] is the cell the source calls
    [list], and [probs] holds [null] as [VNull]. *)
Record AppState : Type := {
  tab : Tab.t;
  toast : option string;
  loading : bool;
  mood : string;
  emoji : value;
  conf : number;
  playlist : list value;
  mode : Mode;
  probs : value;
  history : list HistoryRow.t;
  text : string;
  cameraOn : bool
}.

Definition setToast (x : option string) (st : AppState) : AppState :=
  {| tab := tab st; toast := x; loading := loading st; mood := mood st;
     emoji := emoji st; conf := conf st; playlist := playlist st;
     mode := mode st; probs := probs st; history := history st;
     text := text st; cameraOn := cameraOn st |}.

Definition setLoading (x : bool) (st : AppState) : AppState :=
  {| tab := tab st; toast := toast st; loading := x; mood := mood st;
     emoji := emoji st; conf := conf st; playlist := playlist st;
     mode := mode st; probs := probs st; history := history st;
     text := text st; cameraOn := cameraOn st |}.

Definition setMood (x : string) (st : AppState) : AppState :=
  {| tab := tab st; toast := toast st; loading := loading st; mood := x;
     emoji := emoji st; conf := conf st; playlist := playlist st;
     mode := mode st; probs := probs st; history := history st;
     text := text st; cameraOn := cameraOn st |}.

Definition setEmoji (x : value) (st : AppState) : AppState :=
  {| tab := tab st; toast := toast st; loading := loading st; mood := mood st;
     emoji := x; conf := conf st; playlist := playlist st;
     mode := mode st; probs := probs st; history := history st;
     text := text st; cameraOn := cameraOn st |}.

Definition setConf (x : number) (st : AppState) : AppState :=
  {| tab := tab st; toast := toast st; loading := loading st; mood := mood st;
     emoji := emoji st; conf := x; playlist := playlist st;
     mode := mode st; probs := probs st; history := history st;
     text := text st; cameraOn := cameraOn st |}.

Definition setList (x : list value) (st : AppState) : AppState :=
  {| tab := tab st; toast := toast st; loading := loading st; mood := mood st;
     emoji := emoji st; conf := conf st; playlist := x;
     mode := mode st; probs := probs st; history := history st;
     text := text st; cameraOn := cameraOn st |}.

Definition setProbs (x : value) (st : AppState) : AppState :=
  {| tab := tab st; toast := toast st; loading := loading st; mood := mood st;
     emoji := emoji st; conf := conf st; playlist := playlist st;
     mode := mode st; probs := x; history := history st;
     text := text st; cameraOn := cameraOn st |}.

Definition setText (x : string) (st : AppState) : AppState :=
  {| tab := tab st; toast := toast st; loading := loading st; mood := mood st;
     emoji := emoji st; conf := conf st; playlist := playlist st;
     mode := mode st; probs := probs st; history := history st;
     text := x; cameraOn := cameraOn st |}.

(** [setHistory] takes the updater function, as the source passes it. *)
Definition setHistory (f : list HistoryRow.t -> list HistoryRow.t)
           (st : AppState) : AppState :=
  {| tab := tab st; toast := toast st; loading := loading st; mood := mood st;
     emoji := emoji st; conf := conf st; playlist := playlist st;
     mode := mode st; probs := probs st; history := f (history st);
     text := text st; cameraOn := cameraOn st |}.

Definition setCameraOn (x : bool) (st : AppState) : AppState :=
  {| tab := tab st; toast := toast st; loading := loading st; mood := mood st;
     emoji := emoji st; conf := conf st; playlist := playlist st;
     mode := mode st; probs := probs st; history := history st;
     text := text st; cameraOn := x |}.

(** ** Requests, responses and effects *)

(** The two components of a parsed [URL] that the source reads. *)
Record URL : Type := {
  hostname : string;
  pathname : string
}.

(** The path segments of a parsed URL:
    [u.pathname.split("/").filter(Boolean)]. *)
Definition segments (u : URL) : list string :=
  filter Boolean_string (split (pathname u) "/").

(** A [Blob] is its content. *)
Definition Blob : Type := string.

(** [FormData]: the appended entries, each a field name, a blob and a file
    name. *)
Definition FormData : Type := list (string * Blob * string).

Inductive Body : Type :=
| JSON_body (v : value)        (* [JSON.stringify(v)] *)
| Form_body (fd : FormData).

Record Request : Type := {
  method : string;
  url : string;
  headers : list (string * string);
  body : Body
}.

(** What [fetch] settles to.  It rejects only when no response arrives; a
    response of any status resolves it.  [json] is the parsed body, [None]
    when the body is not a JSON text (then [res.json()] rejects). *)
Record Response : Type := {
  status : Z;
  json : option value
}.

Inductive FetchOutcome : Type :=
| Rejected
| Resolved (res : Response).

(** What a handler does outside the component state. *)
Inductive Event : Type :=
| Fetched (r : Request)
| Pulsed (glyph : value).

Definition is_fetch (ev : Event) : bool :=
  match ev with
  | Fetched _ => true
  | Pulsed _ => false
  end.

(** The requests of a log, in the order they were sent. *)
Fixpoint requests (log : list Event) : list Request :=
  match log with
  | [] => []
  | Fetched r :: log' => r :: requests log'
  | Pulsed _ :: log' => requests log'
  end.

(** A handler runs on the state and the log of effects so far. *)
Definition Handler (A : Type) : Type :=
  AppState -> list Event -> result A * AppState * list Event.

Definition ret {A : Type} (a : A) : Handler A := fun st log => (Ok a, st, log).

Definition lift {A : Type} (r : result A) : Handler A := fun st log => (r, st, log).

Definition bindH {A B : Type} (h : Handler A) (k : A -> Handler B) : Handler B :=
  fun st log =>
    match h st log with
    | (Ok a, st', log') => k a st' log'
    | (Throw e, st', log') => (Throw e, st', log')
    end.

Definition modify (f : AppState -> AppState) : Handler unit :=
  fun st log => (Ok tt, f st, log).

Definition emit (ev : Event) : Handler unit :=
  fun st log => (Ok tt, st, (log ++ [ev])%list).

(** [try { body } catch { handler }] *)
Definition tryH {A : Type} (body : Handler A) (handler : exn -> Handler A)
  : Handler A :=
  fun st log =>
    match body st log with
    | (Ok a, st', log') => (Ok a, st', log')
    | (Throw e, st', log') => handler e st' log'
    end.

(** [try { body } finally { fin }] *)
Definition finallyH {A : Type} (body : Handler A) (fin : Handler unit)
  : Handler A :=
  fun st log =>
    match body st log with
    | (r, st', log') =>
        match fin st' log' with
        | (Ok _, st'', log'') => (r, st'', log'')
        | (Throw e, st'', log'') => (Throw e, st'', log'')
        end
    end.

Declare Scope handler_scope.
Delimit Scope handler_scope with handler.
Notation "x <- c ;; k" := (bindH c (fun x => k))
  (at level 61, c at next level, right associativity) : handler_scope.
Notation "c ;; k" := (bindH c (fun _ => k))
  (at level 61, right associativity) : handler_scope.

(** [x.toLowerCase()] on an untyped [x]: only a string has the method. *)
Definition call_toLowerCase (toLowerCase : string -> string) (x : value)
  : result string :=
  match x with
  | VStr s => Ok (toLowerCase s)
  | _ => Throw TypeError
  end.

(** [l.filter(p)] with a predicate that may throw. *)
Fixpoint filter_r {A : Type} (p : A -> result bool) (l : list A)
  : result (list A) :=
  match l with
  | [] => Ok []
  | x :: l' =>
      (keep <- p x ;;
       rest <- filter_r p l' ;;
       Ok (if keep then x :: rest else rest))%js
  end.

(** [l.some(p)] with a predicate that may throw. *)
Fixpoint some_r {A : Type} (p : A -> result bool) (l : list A) : result bool :=
  match l with
  | [] => Ok false
  | x :: l' => (found <- p x ;; if found then Ok true else some_r p l')%js
  end.

(** The decimal digits of [i]. *)
Definition decimal (i : nat) : string :=
  DecimalString.NilZero.string_of_uint (Nat.to_uint i).

(** [blobs.forEach((b, i) => fd.append("files", b, `frame${i}.jpg`))] *)
Fixpoint append_files (blobs : list Blob) (i : nat) : FormData :=
  match blobs with
  | [] => []
  | b :: blobs' => ("files", b, "frame" ++ decimal i ++ ".jpg")
                   :: append_files blobs' (S i)
  end.

Definition API : string := "http://127.0.0.1:8000".

(** The request of the batch endpoint, all frames under [files]. *)
Definition images_request (blobs : list Blob) : Request :=
  {| method := "POST";
     url := API ++ "/api/predict/images";
     headers := [];
     body := Form_body (append_files blobs 0) |}.

(** The request of the single-image endpoint, one frame under [file]. *)
Definition image_request (blob0 : Blob) : Request :=
  {| method := "POST";
     url := API ++ "/api/predict/image";
     headers := [];
     body := Form_body [("file", blob0, "frame0.jpg")] |}.

(** The request of the text endpoint. *)
Definition text_request (text : string) : Request :=
  {| method := "POST";
     url := API ++ "/api/predict/text";
     headers := [("Content-Type", "application/json")];
     body := JSON_body (VObj [("text", VStr text)]) |}.

(** The cells as [useState] initialises them, around a loaded history. *)
Definition initial (loaded : list HistoryRow.t) : AppState :=
  {| tab := Tab.camera; toast := None; loading := false;
     mood := ""; emoji := VStr "🎧"; conf := num 0; playlist := [];
     mode := all; probs := VNull; history := loaded;
     text := ""; cameraOn := false |}.

(** The keyword sets of the playlist filter. *)
Definition keywords (m : Mode) : list string :=
  match m with
  | focus => [ "focus"; "study"; "lofi"; "instrumental"; "ambient";
               "concentration"; "classical" ]
  | chill => [ "chill"; "relax"; "calm"; "soothing"; "coffee"; "vibes";
               "jazz"; "acoustic" ]
  | _ => [ "workout"; "pump"; "gym"; "energy"; "power"; "motivation"; "edm";
           "hip-hop" ]
  end.

(** The view of an untyped value as [Probs]: an object whose properties
    are all numbers. *)
Fixpoint numeric_fields (fields : list (string * value)) : option Probs :=
  match fields with
  | [] => Some []
  | (k, VNum n) :: fields' =>
      match numeric_fields fields' with
      | Some p => Some ((k, n) :: p)
      | None => None
      end
  | _ => None
  end.

Definition as_Probs (v : value) : option Probs :=
  match v with
  | VObj fields => numeric_fields fields
  | _ => None
  end.

(** What the page shows for a part of the view: nothing, the part, or, for
    a state that does not have the declared type, something this model
    does not describe. *)
Inductive rendering (A : Type) : Type :=
| NotRendered
| Rendered (a : A)
| Unmodelled.
Arguments NotRendered {A}.
Arguments Rendered {A} a.
Arguments Unmodelled {A}.

(** The title of a playlist item as the filter reads it, [it.title || ""]:
    defined for an item of the declared type [Item], an object whose
    [title] is a string (or is missing). *)
Definition title_of (it : value) : option string :=
  match get it "title" with
  | Ok t => match or_else t (VStr "") with
            | VStr s => Some s
            | _ => None
            end
  | Throw _ => None
  end.

(** [k] occurs in [s] as a substring. *)
Definition contains (s k : string) : Prop :=
  exists before after, s = before ++ k ++ after.

(** A playlist item with the three fields the service sends. *)
Definition item (title source url : string) : value :=
  VObj [("title", VStr title); ("source", VStr source); ("url", VStr url)].

(** ** Media devices

    The camera as both components use it: [getUserMedia] hands out a
    stream of tracks, a track delivers until it is stopped, the [<video>]
    element plays a stream, and a canvas encodes the frame drawn on it. *)

Definition Track : Type := nat.

(** A [MediaStream] is its tracks, as [getTracks()] lists them. *)
Definition MediaStream : Type := list Track.

(** The [<video>] element: the stream attached to it and the size of the
    frames it shows ([0] as long as it has none). *)
Record Video : Type := {
  srcObject : option MediaStream;
  videoWidth : nat;
  videoHeight : nat
}.

Definition set_srcObject (s : option MediaStream) (v : Video) : Video :=
  {| srcObject := s; videoWidth := videoWidth v; videoHeight := videoHeight v |}.

(** How a promise settles; a rejection carries any value. *)
Inductive settled (A : Type) : Type :=
| Fulfilled (a : A)
| RejectedWith (reason : value).
Arguments Fulfilled {A} a.
Arguments RejectedWith {A} reason.

(** What the components do to the devices and to their parent. *)
Inductive MediaEvent : Type :=
| Refused                       (* [getUserMedia] rejected *)
| Acquired (s : MediaStream)    (* [getUserMedia] resolved to [s] *)
| Played                        (* [video.play()] *)
| Stopped (t : Track)           (* [t.stop()] *)
| Drew (w h : nat)              (* [ctx.drawImage(video, 0, 0, w, h)] *)
| Photo (b : Blob).             (* [onPhoto(b)] *)

(** The devices: each answer is a function of the number of media events
    so far.  [getContext] tells whether the canvas gives a 2d context,
    [toBlob] is the JPEG of the frame just drawn, [None] for the [null]
    a failed encoding passes to the callback. *)
Record Devices : Type := {
  getUserMedia : nat -> settled MediaStream;
  play : nat -> settled unit;
  getContext : nat -> bool;
  toBlob : nat -> option Blob
}.

(** [e?.message]: [undefined] for [null] and [undefined]; what is thrown
    otherwise has a message only as an object with that property. *)
Definition message (e : value) : value :=
  match get e "message" with
  | Ok v => v
  | Throw _ => VUndefined
  end.

(** [x || fallback] for the two sizes of a video frame. *)
Definition or_size (x fallback : nat) : nat :=
  if (x =? 0)%nat then fallback else x.

(** The tracks that were handed out and not stopped since. *)
Definition live_step (acc : list Track) (ev : MediaEvent) : list Track :=
  match ev with
  | Acquired s => (acc ++ s)%list
  | Stopped t => remove Nat.eq_dec t acc
  | _ => acc
  end.

Definition live (log : list MediaEvent) : list Track :=
  fold_left live_step log [].

(** The blobs handed to [onPhoto], in order. *)
Fixpoint photos (log : list MediaEvent) : list Blob :=
  match log with
  | [] => []
  | Photo b :: log' => b :: photos log'
  | _ :: log' => photos log'
  end.

(** The sizes of the frames drawn, in order. *)
Fixpoint draws (log : list MediaEvent) : list (nat * nat) :=
  match log with
  | [] => []
  | Drew w h :: log' => (w, h) :: draws log'
  | _ :: log' => draws log'
  end.

(** The two camera refs of [App]. *)
Record Refs : Type := {
  videoRef : option Video;
  streamRef : option MediaStream
}.

(** The three buttons of the camera tab of [App]. *)
Inductive CameraAction : Type := StartCamera | CaptureAndAnalyze | StopCamera.

(** ** The component [CameraBox] *)

Module CameraBox.

(** The two refs and the two state cells. *)
Record t : Type := {
  videoRef : option Video;
  streamRef : option MediaStream;
  running : bool;
  err : value
}.

Definition setErr (e : value) (c : t) : t :=
  {| videoRef := videoRef c; streamRef := streamRef c;
     running := running c; err := e |}.

Definition setRunning (b : bool) (c : t) : t :=
  {| videoRef := videoRef c; streamRef := streamRef c;
     running := b; err := err c |}.

Definition set_streamRef (s : option MediaStream) (c : t) : t :=
  {| videoRef := videoRef c; streamRef := s;
     running := running c; err := err c |}.

Definition set_video (v : option Video) (c : t) : t :=
  {| videoRef := v; streamRef := streamRef c;
     running := running c; err := err c |}.

(** The component as mounted around its [<video>] element. *)
Definition mounted (video : Video) : t :=
  {| videoRef := Some video; streamRef := None;
     running := false; err := VNull |}.

(** The [catch] of [startCamera]. *)
Definition failed (e : value) (c : t) : t :=
  setErr (or_else (message e) (VStr "Camera permission denied or unavailable")) c.

Definition startCamera (dev : Devices) (c : t) (log : list MediaEvent)
  : t * list MediaEvent :=
  let c := setErr VNull c in
  match getUserMedia dev (List.length log) with
  | RejectedWith e => (failed e c, (log ++ [Refused])%list)
  | Fulfilled stream =>
      let log := (log ++ [Acquired stream])%list in
      let c := set_streamRef (Some stream) c in
      match videoRef c with
      | Some video =>
          let c := set_video (Some (set_srcObject (Some stream) video)) c in
          match play dev (List.length log) with
          | RejectedWith e => (failed e c, (log ++ [Played])%list)
          | Fulfilled _ => (setRunning true c, (log ++ [Played])%list)
          end
      | None => (setRunning true c, log)
      end
  end.

Definition stopCamera (c : t) (log : list MediaEvent) : t * list MediaEvent :=
  let log := match streamRef c with
             | Some stream => (log ++ map Stopped stream)%list
             | None => log
             end in
  let c := set_streamRef None c in
  let c := match videoRef c with
           | Some video => set_video (Some (set_srcObject None video)) c
           | None => c
           end in
  (setRunning false c, log).

Definition captureFrame (dev : Devices) (c : t) (log : list MediaEvent)
  : t * list MediaEvent :=
  match videoRef c with
  | None => (c, log)
  | Some video =>
      let w := or_size (videoWidth video) 640 in
      let h := or_size (videoHeight video) 480 in
      if getContext dev (List.length log) then
        let log := (log ++ [Drew w h])%list in
        match toBlob dev (List.length log) with
        | Some blob => (c, (log ++ [Photo blob])%list)
        | None => (c, log)
        end
      else (c, log)
  end.

(** What the user can do to the component.  [Unmount] runs the cleanup
    of the effect, [stopCamera], once React has detached the ref of the
    [<video>]: [videoRef.current] is [null] by then, so the cleanup
    leaves the [srcObject] of the element as it is. *)
Inductive Action : Type := Start | Capture | Stop | Unmount.

(** The buttons the view offers: "Start Camera" while not [running],
    "Capture & Analyze" and "Stop" while [running]. *)
Definition offered (c : t) (a : Action) : bool :=
  match a with
  | Start => negb (running c)
  | Capture | Stop => running c
  | Unmount => true
  end.

Definition step (dev : Devices) (a : Action) (c : t) (log : list MediaEvent)
  : t * list MediaEvent :=
  match a with
  | Start => startCamera dev c log
  | Capture => captureFrame dev c log
  | Stop => stopCamera c log
  | Unmount => stopCamera (set_video None c) log
  end.

(** A sequential session: each action is one the view offers at that
    moment, and each handler has come to its end before the next click.
    The source does not enforce the second: "Start Camera" stays on the
    page while [getUserMedia] and [play()] are pending, and a click in
    between starts a second handler beside the first.  Such overlapping
    runs are not sessions in this sense. *)
Fixpoint session (dev : Devices) (actions : list Action) (c : t)
         (log : list MediaEvent) : option (t * list MediaEvent) :=
  match actions with
  | [] => Some (c, log)
  | a :: actions' =>
      if offered c a then
        let '(c', log') := step dev a c log in
        session dev actions' c' log'
      else None
  end.

(** The line "Camera Error: ..." is shown: [err && ...]. *)
Definition error_shown (c : t) : bool := truthy (err c).

(** The camera is held exactly while the component says so. *)
Definition in_step (c : t) (log : list MediaEvent) : Prop :=
  if running c then exists s, streamRef c = Some s /\ live log = s
  else streamRef c = None /\ live log = [].

End CameraBox.

(** ** A reference host

    Plain instances of the host functions, for running the component on
    concrete inputs.  They cover ordinary text only (ASCII letters, http(s)
    URLs without credentials, JSON without escapes or fractions); every
    theorem of the component is stated for an arbitrary host. *)

Module Reference.

Definition toLowerCase : string -> string := ascii_lower.

(** The longest prefix of [s] free of the characters of [stops]. *)
Fixpoint take_until (stops : string) (s : string) : string :=
  match s with
  | EmptyString => EmptyString
  | String c s' => if occurs c stops then EmptyString
                   else String c (take_until stops s')
  end.

(** [scheme://host[:port][/path][?query][#fragment]] with scheme http
    or https. *)
Definition new_URL (url : string) : result URL :=
  match strip ["https://"; "http://"] url with
  | None => Throw TypeError
  | Some rest =>
      let authority := take_until "/?#" rest in
      let host := take_until ":" authority in
      let path := take_until "?#" (drop (String.length authority) rest) in
      match host with
      | EmptyString => Throw TypeError
      | _ => Ok {| hostname := ascii_lower host;
                   pathname := match path with
                               | EmptyString => "/"
                               | _ => path
                               end |}
      end
  end.

Definition is_digit (c : ascii) : bool :=
  let n := nat_of_ascii c in (48 <=? n)%nat && (n <=? 57)%nat.

(** The value of a string of decimal digits, [None] if another
    character occurs. *)
Fixpoint digits (acc : Z) (s : string) : option Z :=
  match s with
  | EmptyString => Some acc
  | String c s' =>
      if is_digit c
      then digits (10 * acc + Z.of_nat (nat_of_ascii c - 48)) s'
      else None
  end.

(** Integers in decimal, with white space around; the empty string is
    [0] and the rest is [NaN]. *)
Definition StringToNumber (s : string) : number :=
  match trim s with
  | EmptyString => num 0
  | String "-" (String c r) =>
      match digits 0 (String c r) with
      | Some z => SFopp (num z)
      | None => NaN
      end
  | t => match digits 0 t with
         | Some z => num z
         | None => NaN
         end
  end.

Definition is_json_space (c : ascii) : bool :=
  let n := nat_of_ascii c in
  Nat.eqb n 32 || Nat.eqb n 9 || Nat.eqb n 10 || Nat.eqb n 13.

Fixpoint skip_space (s : string) : string :=
  match s with
  | String c s' => if is_json_space c then skip_space s' else s
  | EmptyString => s
  end.

(** What the parser is reading: a value, the rest of an array after its
    elements [done] (in reverse), or the rest of an object. *)
Inductive goal : Type :=
| a_value
| an_array (done : list value)
| an_object (done : list (string * value)).

Definition quote : ascii := ascii_of_nat 34.
Definition backslash : ascii := ascii_of_nat 92.

(** A string literal without escapes, after its opening quote. *)
Definition string_literal (s : string) : option (string * string) :=
  let chars := take_until (String quote (String backslash EmptyString)) s in
  match drop (String.length chars) s with
  | String c rest => if Ascii.eqb c quote then Some (chars, rest) else None
  | EmptyString => None
  end.

Definition number_literal (s : string) : option (value * string) :=
  let negative := startsWith s "-" in
  let s1 := if negative then drop 1 s else s in
  let ds := take_until " ,]}" (take_until (bytes [9; 10; 13]) s1) in
  match ds with
  | EmptyString => None
  | _ =>
      match digits 0 ds with
      | Some z => Some (VNum (if negative then SFopp (num z) else num z),
                        drop (String.length ds) s1)
      | None => None
      end
  end.

Fixpoint parse (fuel : nat) (g : goal) (s : string) : option (value * string) :=
  match fuel with
  | O => None
  | S fuel' =>
      let s := skip_space s in
      match g with
      | a_value =>
          if startsWith s "null" then Some (VNull, drop 4 s)
          else if startsWith s "true" then Some (VBool true, drop 4 s)
          else if startsWith s "false" then Some (VBool false, drop 5 s)
          else
            match s with
            | String "[" r =>
                match skip_space r with
                | String "]" r' => Some (VArr [], r')
                | _ => match parse fuel' a_value r with
                       | Some (v, r') => parse fuel' (an_array [v]) r'
                       | None => None
                       end
                end
            | String "{" r =>
                match skip_space r with
                | String "}" r' => Some (VObj [], r')
                | _ => parse fuel' (an_object []) (String "," r)
                end
            | String c r =>
                if Ascii.eqb c quote then
                  match string_literal r with
                  | Some (str, r') => Some (VStr str, r')
                  | None => None
                  end
                else number_literal s
            | EmptyString => None
            end
      | an_array done =>
          match s with
          | String "]" r => Some (VArr (rev done), r)
          | String "," r =>
              match parse fuel' a_value r with
              | Some (v, r') => parse fuel' (an_array (v :: done)) r'
              | None => None
              end
          | _ => None
          end
      | an_object done =>
          match s with
          | String "}" r => Some (VObj (rev done), r)
          | String "," r =>
              match skip_space r with
              | String c r1 =>
                  if Ascii.eqb c quote then
                    match string_literal r1 with
                    | Some (key, r2) =>
                        match skip_space r2 with
                        | String ":" r3 =>
                            match parse fuel' a_value r3 with
                            | Some (v, r4) =>
                                parse fuel' (an_object ((key, v) :: done)) r4
                            | None => None
                            end
                        | _ => None
                        end
                    | None => None
                    end
                  else None
              | EmptyString => None
              end
          | _ => None
          end
      end
  end.

(** The whole text must be one value. *)
Definition JSON_parse (s : string) : result value :=
  match parse (S (String.length s)) a_value s with
  | Some (v, rest) => match skip_space rest with
                      | EmptyString => Ok v
                      | _ => Throw SyntaxError
                      end
  | None => Throw SyntaxError
  end.

(** A service that is down: every request is rejected. *)
Definition server_down : nat -> Request -> FetchOutcome :=
  fun _ _ => Rejected.




(** A service that answers every request with the same body. *)
Definition server_replies (j : value) : nat -> Request -> FetchOutcome :=
  fun _ _ => Resolved {| status := 200; json := Some j |}.

(** Three quarters and one quarter, for probabilities. *)
Definition three_quarters : number := SFdiv prec emax (num 3) (num 4).
Definition one_quarter : number := SFdiv prec emax (num 1) (num 4).

(** Seven probabilities, one above 1 and one below 0, two of them equal;
    and the same as the [probs] of a response. *)
Definition seven : Probs :=
  [("sad", one_quarter); ("calm", num 0); ("angry", num 2);
   ("happy", three_quarters); ("fear", SFopp (num 1)); ("surprise", num 1);
   ("disgust", one_quarter)].


(** A stored history that is not JSON. *)
Definition corrupt_storage (key : string) : option string :=
  if String.eqb key "mood_history" then Some "{oops" else None.

(** Three captured frames. *)
Definition frames : list Blob := ["frame-a"; "frame-b"; "frame-c"].

(** A clock that shows the count of effects. *)
Definition clock (n : nat) : string := "t" ++ decimal n.

(** [ToString] on strings; other values are not told apart. *)
Definition ToString (v : value) : string :=
  match v with
  | VStr s => s
  | _ => "[object Object]"
  end.

(** A video element that shows frames of 1280 by 720. *)
Definition video : Video :=
  {| srcObject := None; videoWidth := 1280; videoHeight := 720 |}.

(** A camera that works: each stream has one track, named by the moment
    it was handed out. *)
Definition camera : Devices :=
  {| getUserMedia := fun n => Fulfilled [n];
     play := fun _ => Fulfilled tt;
     getContext := fun _ => true;
     toBlob := fun n => Some ("jpeg-" ++ decimal n) |}.

(** A camera the user does not allow. *)
Definition camera_denied : Devices :=
  {| getUserMedia := fun _ =>
       RejectedWith (VObj [("name", VStr "NotAllowedError");
                           ("message", VStr "Permission denied")]);
     play := fun _ => Fulfilled tt;
     getContext := fun _ => true;
     toBlob := fun _ => None |}.

(** A camera whose first [play()] is rejected, with an error that has
    no message. *)
Definition camera_stalls : Devices :=
  {| getUserMedia := fun n => Fulfilled [n];
     play := fun n => if (n =? 1)%nat then RejectedWith (VObj [])
                      else Fulfilled tt;
     getContext := fun _ => true;
     toBlob := fun n => if (n =? 2)%nat then None
                        else Some ("jpeg-" ++ decimal n) |}.

End Reference.

(** ** The component *)

Section App.

(** *** The host environment *)

(** [String.prototype.toLowerCase]: Unicode lower case, which on plain
    ASCII text is the lower case of the letters A..Z. *)
Variable toLowerCase : string -> string.
Hypothesis toLowerCase_ascii :
  forall s, ascii_only s = true -> toLowerCase s = ascii_lower s.

(** The conversion of a string to a number ([Number(s)]). *)
Variable StringToNumber : string -> number.

(** [new URL(url)]: the WHATWG parser; it throws on input that is not
    an absolute URL.  A ["?"] ends the path, so none is left in
    [pathname]. *)
Variable new_URL : string -> result URL.
Hypothesis pathname_no_query :
  forall url u, new_URL url = Ok u -> occurs "?" (pathname u) = false.

(** [JSON.parse] *)
Variable JSON_parse : string -> result value.
Hypothesis JSON_parse_empty_array : JSON_parse "[]" = Ok (VArr []).

(** The conversion to a string that [+] applies to its right operand. *)
Variable ToString : value -> string.
Hypothesis ToString_string : forall s, ToString (VStr s) = s.

(** The service: what the n-th request of a run settles to. *)
Variable server : nat -> Request -> FetchOutcome.

(** [new Date().toLocaleTimeString()], as a function of the number of
    effects so far. *)
Variable clock : nat -> string.

(** *** Helpers *)

(** [Number(v)].  An array converts through its string form: the empty
    array is [0], a one-element array converts as its element's string
    does, and a longer one contains a comma and is not a number. *)
Fixpoint Number (v : value) : number :=
  match v with
  | VUndefined => NaN
  | VNull => num 0
  | VBool b => if b then num 1 else num 0
  | VNum n => n
  | VStr s => StringToNumber s
  | VArr [] => num 0
  | VArr [x] =>
      match x with
      | VUndefined | VNull => num 0
      | VNum (S754_zero _) => num 0
      | VNum n => n
      | VStr s => StringToNumber s
      | VArr _ => Number x
      | VBool _ | VObj _ | VBuiltin _ => NaN
      end
  | VArr _ => NaN
  | VObj _ => NaN
  | VBuiltin _ => NaN
  end.

(** [toSpotifyEmbed]: the body of the [try] either returns a string or
    falls through to the final [return null]; the empty [catch] swallows
    whatever the parser throws. *)
Definition toSpotifyEmbed (url : string) : result (option string) :=
  try_catch
    (u <- new_URL url ;;
     if includes (hostname u) "open.spotify.com" then
       let parts := segments u in
       if (2 <=? List.length parts)%nat then
         let type := nth 0 parts "" in
         let id := nth 0 (split (nth 1 parts "") "?") "" in
         Ok (Some ("https://open.spotify.com/embed/" ++ type ++ "/" ++ id))
       else Ok None
     else Ok None)%js
    (fun _ => Ok None).

(** *** Effects *)

Definition count_fetches (log : list Event) : nat :=
  List.length (filter is_fetch log).

(** [await fetch(...)] *)
Definition fetch (r : Request) : Handler Response :=
  fun st log =>
    match server (count_fetches log) r with
    | Rejected => (Throw NetworkError, st, (log ++ [Fetched r])%list)
    | Resolved res => (Ok res, st, (log ++ [Fetched r])%list)
    end.

(** [await res.json()] *)
Definition res_json (res : Response) : Handler value :=
  match json res with
  | Some v => ret v
  | None => lift (Throw SyntaxError)
  end.

(** [showToast]; the timer that clears the toast later is left out. *)
Definition showToast (msg : string) : Handler unit :=
  modify (setToast (Some msg)).

(** [pulse]: the confetti, ten copies of one glyph. *)
Definition pulse (m : string) : Handler unit :=
  emit (Pulsed (or_else (lookup EMOJI m) (VStr "✨"))).

Definition now : Handler string :=
  fun st log => (Ok (clock (List.length log)), st, log).

(** *** [updateResults] *)

Definition updateResults (j : value) (from : Tab.t) : Handler unit :=
  (j_mood <- lift (get j "mood") ;;
   m <- lift (call_toLowerCase toLowerCase (or_else j_mood (VStr ""))) ;;
   j_emoji <- lift (get j "emoji") ;;
   let e := or_else (or_else j_emoji (lookup EMOJI m)) (VStr "🎧") in
   j_confidence <- lift (get j "confidence") ;;
   let c := Number (or_else j_confidence (VNum (num 0))) in
   modify (setMood m) ;;
   modify (setEmoji e) ;;
   modify (setConf c) ;;
   j_playlist <- lift (get j "playlist") ;;
   modify (setList (array_or_empty j_playlist)) ;;
   j_probs <- lift (get j "probs") ;;
   modify (setProbs (or_else j_probs VNull)) ;;
   time <- now ;;
   modify (setHistory (fun h =>
     firstn 8 ({| HistoryRow.when := time;
                  HistoryRow.mood := if Boolean_string m then m else "neutral";
                  HistoryRow.emoji := e;
                  HistoryRow.confidence := c;
                  HistoryRow.from := from;
                  HistoryRow.title := first_title j_playlist |} :: h))) ;;
   pulse m)%handler.

(** *** What [updateResults] computes

    The normalised fields, named for the statements below. *)

(** [j.key], [undefined] where the read would throw. *)
Definition field (j : value) (key : string) : value :=
  match get j key with
  | Ok v => v
  | Throw _ => VUndefined
  end.

(** [m]: the label in lower case; the read and the call can throw. *)
Definition normal_mood (j : value) : result string :=
  (j_mood <- get j "mood" ;;
   call_toLowerCase toLowerCase (or_else j_mood (VStr "")))%js.

(** [e] *)
Definition normal_emoji (j : value) (m : string) : value :=
  or_else (or_else (field j "emoji") (lookup EMOJI m)) (VStr "🎧").

(** [c] *)
Definition normal_confidence (j : value) : number :=
  Number (or_else (field j "confidence") (VNum (num 0))).

(** The entry that [updateResults] puts in front of the history. *)
Definition new_row (j : value) (from : Tab.t) (m time : string) : HistoryRow.t :=
  {| HistoryRow.when := time;
     HistoryRow.mood := if Boolean_string m then m else "neutral";
     HistoryRow.emoji := normal_emoji j m;
     HistoryRow.confidence := normal_confidence j;
     HistoryRow.from := from;
     HistoryRow.title := first_title (field j "playlist") |}.

(** The state after [updateResults] on a response with label [m]. *)
Definition updated (j : value) (from : Tab.t) (m time : string)
           (st : AppState) : AppState :=
  {| tab := tab st; toast := toast st; loading := loading st;
     mood := m;
     emoji := normal_emoji j m;
     conf := normal_confidence j;
     playlist := array_or_empty (field j "playlist");
     mode := mode st;
     probs := or_else (field j "probs") VNull;
     history := firstn 8 (new_row j from m time :: history st);
     text := text st; cameraOn := cameraOn st |}.

(** A session of results: each goes to [updateResults]; one that makes
    it throw is dropped, as the [catch] of every caller does. *)
Fixpoint record_all (results : list (value * Tab.t)) : Handler unit :=
  match results with
  | [] => ret tt
  | (j, from) :: results' =>
      (tryH (updateResults j from) (fun _ => ret tt) ;;
       record_all results')%handler
  end.

(** *** Backend calls *)

Definition analyzeText : Handler unit :=
  fun st =>
    if negb (Boolean_string (trim (text st))) then ret tt st
    else
      (modify (setLoading true) ;;
       finallyH
         (tryH
            (res <- fetch (text_request (text st)) ;;
             j <- res_json res ;;
             updateResults j Tab.text)
            (fun _ => showToast "Failed to analyze text"))
         (modify (setLoading false)))%handler st.

Definition analyzeImagesBlobs (blobs : list Blob) (from : Tab.t) : Handler unit :=
  (modify (setLoading true) ;;
   finallyH
     (tryH
        (res <- fetch (images_request blobs) ;;
         j <- res_json res ;;
         updateResults j from)
        (fun _ =>
           tryH
             match blobs with
             | blob0 :: _ =>
                 r2 <- fetch (image_request blob0) ;;
                 j2 <- res_json r2 ;;
                 updateResults j2 from
             | [] => showToast "Failed to analyze image"
             end
             (fun _ => showToast "Failed to analyze image")))
     (modify (setLoading false)))%handler.


(** *** History *)

(** The initialiser of the [history] cell, over the content of
    [localStorage] (the stored strings by key):
    [try { return JSON.parse(getItem("mood_history") || "[]") } catch { return [] }]. *)
Definition initial_history (localStorage : string -> option string)
  : result value :=
  try_catch
    (JSON_parse (match localStorage "mood_history" with
                 | Some stored => if Boolean_string stored then stored else "[]"
                 | None => "[]"
                 end))
    (fun _ => Ok (VArr [])).

(** *** The view *)

(** [filteredList] *)
Definition filteredList (m : Mode) (items : list value) : result (list value) :=
  match m with
  | all => Ok items
  | _ =>
      let kw := keywords m in
      filter_r (fun it =>
        some_r (fun k =>
          (it_title <- get it "title" ;;
           lowered <- call_toLowerCase toLowerCase (or_else it_title (VStr "")) ;;
           Ok (includes lowered k))%js) kw) items
  end.

(** The test of the filter on an item of the declared type. *)
Definition matches (m : Mode) (it : value) : bool :=
  match title_of it with
  | Some t => existsb (includes (toLowerCase t)) (keywords m)
  | None => false
  end.

(** The percentage of the main result: [Math.round(conf * 100)]. *)
Definition confidence_percent (st : AppState) : number :=
  Math_round (mul (conf st) (num 100)).

(** The main confidence line; without a mood the section shows
    "Results will appear here." instead. *)
Definition confidence_line (st : AppState) : rendering number :=
  if Boolean_string (mood st) then Rendered (confidence_percent st)
  else NotRendered.

(** The block "Confidence by emotion": [probs && <MiniChart .../>],
    within the results of a non-empty mood. *)
Definition confidence_breakdown (st : AppState) : rendering (list Bar) :=
  if Boolean_string (mood st) then
    if truthy (probs st) then
      match as_Probs (probs st) with
      | Some p => match MiniChart (Some p) with
                  | Some bars => Rendered bars
                  | None => NotRendered
                  end
      | None => Unmodelled
      end
    else NotRendered
  else NotRendered.

(** *** One request and its recording

    The body shared by the three [try] blocks of the backend calls:
    [fetch], then [res.json()], then [updateResults]. *)

Definition attempt (r : Request) (from : Tab.t) : Handler unit :=
  (res <- fetch r ;;
   j <- res_json res ;;
   updateResults j from)%handler.

(** What an attempt records: the parsed body of the response and its
    label, if the request is answered with JSON that normalises. *)
Definition recorded (out : FetchOutcome) : option (value * string) :=
  match out with
  | Rejected => None
  | Resolved res =>
      match json res with
      | None => None
      | Some j => match normal_mood j with
                  | Ok m => Some (j, m)
                  | Throw _ => None
                  end
      end
  end.

(** The cells that hold a result. *)
Definition result_cells (st : AppState)
  : string * value * number * list value * value * list HistoryRow.t :=
  (mood st, emoji st, conf st, playlist st, probs st, history st).

(** The [onChange] of the file input:
    [const f = e.target.files?.[0]; if (!f) return;
     await analyzeImagesBlobs([f], "upload")]. *)
Definition upload (files : option (list Blob)) : Handler unit :=
  match files with
  | Some (f :: _) => analyzeImagesBlobs [f] Tab.upload
  | _ => ret tt
  end.

(** The emoji of the result header: [emoji || EMOJI[mood] || "🎧"]. *)
Definition shown_emoji (st : AppState) : value :=
  or_else (or_else (emoji st) (lookup EMOJI (mood st))) (VStr "🎧").


(** *** Camera control *)

(** The text of the toast: ["Camera error: " + (e?.message || "permission denied")]. *)
Definition camera_error (e : value) : string :=
  "Camera error: " ++ ToString (or_else (message e) (VStr "permission denied")).

(** The handlers of the camera tab run on the cells, on the two refs and
    on the media events so far; they return the refs and the events. *)
Definition startCamera (dev : Devices) (refs : Refs) (media : list MediaEvent)
  : Handler (Refs * list MediaEvent) :=
  match getUserMedia dev (List.length media) with
  | RejectedWith e =>
      (showToast (camera_error e) ;; ret (refs, (media ++ [Refused])%list))%handler
  | Fulfilled stream =>
      let media := (media ++ [Acquired stream])%list in
      let refs := {| videoRef := videoRef refs; streamRef := Some stream |} in
      match videoRef refs with
      | Some video =>
          let refs := {| videoRef := Some (set_srcObject (Some stream) video);
                         streamRef := streamRef refs |} in
          match play dev (List.length media) with
          | RejectedWith e =>
              (showToast (camera_error e) ;;
               ret (refs, (media ++ [Played])%list))%handler
          | Fulfilled _ =>
              (modify (setCameraOn true) ;;
               ret (refs, (media ++ [Played])%list))%handler
          end
      | None => (modify (setCameraOn true) ;; ret (refs, media))%handler
      end
  end.

Definition stopCamera (refs : Refs) (media : list MediaEvent)
  : Handler (Refs * list MediaEvent) :=
  let media := match streamRef refs with
               | Some stream => (media ++ map Stopped stream)%list
               | None => media
               end in
  let refs := {| videoRef := option_map (set_srcObject None) (videoRef refs);
                 streamRef := None |} in
  (modify (setCameraOn false) ;; ret (refs, media))%handler.

(** The loop of [captureAndAnalyze], [n] rounds to go: draw the frame,
    encode it, keep the JPEG unless the encoding gave [null]. *)
Fixpoint capture (dev : Devices) (n w h : nat) (frames : list Blob)
         (media : list MediaEvent) : list Blob * list MediaEvent :=
  match n with
  | O => (frames, media)
  | S n' =>
      let media := (media ++ [Drew w h])%list in
      let frames := match toBlob dev (List.length media) with
                    | Some blob => (frames ++ [blob])%list
                    | None => frames
                    end in
      capture dev n' w h frames media
  end.

Definition captureAndAnalyze (dev : Devices) (refs : Refs)
           (media : list MediaEvent) : Handler (Refs * list MediaEvent) :=
  match videoRef refs with
  | None => ret (refs, media)
  | Some video =>
      let w := or_size (videoWidth video) 640 in
      let h := or_size (videoHeight video) 480 in
      if getContext dev (List.length media) then
        let '(frames, media) := capture dev 3 w h [] media in
        (analyzeImagesBlobs frames Tab.camera ;; ret (refs, media))%handler
      else ret (refs, media)
  end.

(** The camera tab offers "Start Camera" while the camera is off, and
    "Capture 3 Frames & Analyze" (disabled while [loading]) and "Stop"
    while it is on. *)
Definition camera_offered (st : AppState) (a : CameraAction) : bool :=
  match a with
  | StartCamera => negb (cameraOn st)
  | CaptureAndAnalyze => cameraOn st && negb (loading st)
  | StopCamera => cameraOn st
  end.

Definition camera_step (dev : Devices) (a : CameraAction) (refs : Refs)
           (media : list MediaEvent) : Handler (Refs * list MediaEvent) :=
  match a with
  | StartCamera => startCamera dev refs media
  | CaptureAndAnalyze => captureAndAnalyze dev refs media
  | StopCamera => stopCamera refs media
  end.

(** A sequential session on the camera tab: each click is on a button
    offered at that moment, and each handler has ended before the next
    click.  The source does not enforce the second: "Start Camera" stays
    on the page while [getUserMedia] and [play()] are pending, and "Stop"
    and the capture button while the three frames are taken.  Such
    overlapping runs are not sessions in this sense. *)
Fixpoint camera_session (dev : Devices) (actions : list CameraAction)
         (refs : Refs) (media : list MediaEvent)
  : AppState -> list Event ->
    option (result (Refs * list MediaEvent) * AppState * list Event) :=
  fun st log =>
    match actions with
    | [] => Some (Ok (refs, media), st, log)
    | a :: actions' =>
        if camera_offered st a then
          match camera_step dev a refs media st log with
          | (Ok (refs', media'), st', log') =>
              camera_session dev actions' refs' media' st' log'
          | thrown => Some thrown
          end
        else None
    end.

(** The camera of [App] is held exactly while [cameraOn] says so. *)
Definition camera_in_step (st : AppState) (refs : Refs)
           (media : list MediaEvent) : Prop :=
  if cameraOn st then exists s, streamRef refs = Some s /\ live media = s
  else streamRef refs = None /\ live media = [].

(** *** Responses that cannot be recorded *)


(** A value that a setter of [useState] stores as it is.  Called with
    a function, a setter does not store it: React runs it as an updater
    on the previous value of the cell.  [updateResults] passes parsed
    JSON and strings of the tables to its setters, with one exception:
    for a label that names an inherited function, such as "constructor",
    [EMOJI[m]] is that function, [e] with it when the response has no
    emoji of its own, and the emoji cell then holds what the function
    returns.  The history entry is built from [e] itself.  The emoji
    cell is stated below for the values stored as they are. *)
Definition stored_as_is (v : value) : bool :=
  match v with
  | VBuiltin _ => false
  | _ => true
  end.




(** ** Properties *)

(** *** Strings *)

Lemma startsWith_append (p s : string) : startsWith (p ++ s) p = true.
Proof.
  induction p as [|c p IH]; simpl.
  - reflexivity.
  - rewrite Ascii.eqb_refl. exact IH.
Qed.

(** Without the separator in it, a string is its own single piece. *)
Lemma split_absent (s : string) (sep : ascii) :
  occurs sep s = false -> split s sep = [s].
Proof.
  induction s as [|c s IH]; simpl; intros H.
  - reflexivity.
  - apply orb_false_iff in H. destruct H as [Hc Hs].
    rewrite Hc, (IH Hs). reflexivity.
Qed.

(** A character of a piece is a character of the whole string. *)
Lemma occurs_piece (c sep : ascii) (s piece : string) :
  In piece (split s sep) -> occurs c piece = true -> occurs c s = true.
Proof.
  revert piece. induction s as [|d s IH]; simpl; intros piece Hin Hocc.
  - destruct Hin as [<-|[]]. discriminate.
  - destruct (Ascii.eqb d sep).
    + destruct Hin as [<-|Hin]; [discriminate|].
      rewrite (IH _ Hin Hocc). apply orb_true_r.
    + destruct (split s sep) as [|p ps] eqn:E.
      * destruct Hin as [<-|[]]. simpl in Hocc.
        rewrite orb_false_r in Hocc. rewrite Hocc. reflexivity.
      * destruct Hin as [<-|Hin].
        -- simpl in Hocc. apply orb_true_iff in Hocc.
           destruct Hocc as [->|Hocc]; [reflexivity|].
           rewrite (IH p (or_introl eq_refl) Hocc). apply orb_true_r.
        -- rewrite (IH piece (or_intror Hin) Hocc). apply orb_true_r.
Qed.

(** *** [toSpotifyEmbed] *)

Lemma segment_no_query (url : string) (u : URL) (seg : string) :
  new_URL url = Ok u -> In seg (segments u) -> occurs "?" seg = false.
Proof.
  intros Hu Hin. apply filter_In in Hin. destruct Hin as [Hin _].
  destruct (occurs "?" seg) eqn:E; [|reflexivity].
  rewrite <- (pathname_no_query url u Hu). symmetry.
  exact (occurs_piece _ _ _ _ Hin E).
Qed.

Lemma toSpotifyEmbed_unfold (url : string) (u : URL) :
  new_URL url = Ok u ->
  toSpotifyEmbed url =
    if includes (hostname u) "open.spotify.com" then
      match segments u with
      | type :: id :: _ =>
          Ok (Some ("https://open.spotify.com/embed/" ++ type ++ "/"
                    ++ nth 0 (split id "?") ""))
      | _ => Ok None
      end
    else Ok None.
Proof.
  intros Hu. unfold toSpotifyEmbed, segments. rewrite Hu. simpl.
  destruct (includes (hostname u) "open.spotify.com"); [|reflexivity].
  destruct (filter Boolean_string (split (pathname u) "/")) as [|t [|i r]];
    reflexivity.
Qed.

(** C10: [toSpotifyEmbed] returns on every string, never throwing, and
    what it returns is [null] or a string that begins with
    [https://open.spotify.com/embed/]. *)
Theorem toSpotifyEmbed_total (url : string) :
  exists r, toSpotifyEmbed url = Ok r /\
    (r = None \/
     exists s, r = Some s /\
               startsWith s "https://open.spotify.com/embed/" = true).
Proof.
  destruct (new_URL url) as [u|e] eqn:Hu.
  - rewrite (toSpotifyEmbed_unfold url u Hu).
    destruct (includes (hostname u) "open.spotify.com").
    + destruct (segments u) as [|type [|id rest]].
      * exists None. split; [reflexivity|left; reflexivity].
      * exists None. split; [reflexivity|left; reflexivity].
      * eexists. split; [reflexivity|]. right. eexists. split; [reflexivity|].
        apply startsWith_append.
    + exists None. split; [reflexivity|left; reflexivity].
  - exists None. unfold toSpotifyEmbed. rewrite Hu. simpl.
    split; [reflexivity|left; reflexivity].
Qed.

(** C4, amended: when the URL parses, its host name contains
    [open.spotify.com] and its path has at least two segments, the first
    two being [type] and [id], the result is
    [https://open.spotify.com/embed/<type>/<id>]; so the playlist URL of
    the specification, which the parser splits into the host
    [open.spotify.com] and the path [/playlist/37i9dQZF1DXcBWIGoYBM5M],
    gives its embed URL; and a string that does not parse, or whose host
    name does not contain [open.spotify.com], gives [null]. *)
Theorem toSpotifyEmbed_spec :
  (forall url u type id rest,
      new_URL url = Ok u ->
      includes (hostname u) "open.spotify.com" = true ->
      segments u = type :: id :: rest ->
      toSpotifyEmbed url =
        Ok (Some ("https://open.spotify.com/embed/" ++ type ++ "/" ++ id)))
  /\ (new_URL "https://open.spotify.com/playlist/37i9dQZF1DXcBWIGoYBM5M?si=abc"
      = Ok {| hostname := "open.spotify.com";
              pathname := "/playlist/37i9dQZF1DXcBWIGoYBM5M" |} ->
      toSpotifyEmbed "https://open.spotify.com/playlist/37i9dQZF1DXcBWIGoYBM5M?si=abc"
      = Ok (Some "https://open.spotify.com/embed/playlist/37i9dQZF1DXcBWIGoYBM5M"))
  /\ (forall url,
      (forall u, new_URL url = Ok u ->
                 includes (hostname u) "open.spotify.com" = false) ->
      toSpotifyEmbed url = Ok None).
Proof.
  split; [|split].
  - intros url u type id rest Hu Hhost Hseg.
    rewrite (toSpotifyEmbed_unfold url u Hu), Hhost, Hseg.
    assert (Hq : occurs "?" id = false).
    { apply (segment_no_query url u id Hu). rewrite Hseg. right. left.
      reflexivity. }
    rewrite (split_absent id "?" Hq). reflexivity.
  - intros Hu. rewrite (toSpotifyEmbed_unfold _ _ Hu). reflexivity.
  - intros url H. destruct (new_URL url) as [u|e] eqn:Hu.
    + rewrite (toSpotifyEmbed_unfold url u Hu), (H u eq_refl). reflexivity.
    + unfold toSpotifyEmbed. rewrite Hu. reflexivity.
Qed.

(** *** [filteredList] *)

Lemma startsWith_spec (s k : string) :
  startsWith s k = true <-> exists after, s = k ++ after.
Proof.
  revert s. induction k as [|c k IH]; intros s; simpl.
  - split; [intros _; exists s; reflexivity|reflexivity].
  - destruct s as [|d s].
    + split; [discriminate|]. intros [after H]. discriminate.
    + rewrite andb_true_iff, Ascii.eqb_eq, IH. split.
      * intros [-> [after ->]]. exists after. reflexivity.
      * intros [after H]. injection H as -> ->. split; [reflexivity|].
        exists after. reflexivity.
Qed.

(** [includes] decides [contains]. *)
Lemma includes_spec (s k : string) : includes s k = true <-> contains s k.
Proof.
  unfold contains. induction s as [|c s IH].
  - simpl. destruct (startsWith "" k) eqn:E.
    + apply startsWith_spec in E. destruct E as [after E].
      split; [|reflexivity]. intros _. exists "", after. exact E.
    + split; [discriminate|]. intros [before [after H]].
      destruct before; [|discriminate]. simpl in H.
      rewrite <- E. apply startsWith_spec. exists after. exact H.
  - cbn [includes]. destruct (startsWith (String c s) k) eqn:E.
    + apply startsWith_spec in E. destruct E as [after E].
      split; [|reflexivity]. intros _. exists "", after. exact E.
    + rewrite IH. split.
      * intros [before [after ->]]. exists (String c before), after.
        reflexivity.
      * intros [before [after H]]. destruct before as [|d before].
        -- simpl in H. exfalso. rewrite <- not_true_iff_false in E.
           apply E, startsWith_spec. exists after. exact H.
        -- simpl in H. injection H as _ ->. exists before, after.
           reflexivity.
Qed.

Lemma some_r_pure {A : Type} (p : A -> result bool) (q : A -> bool)
      (l : list A) :
  (forall x, In x l -> p x = Ok (q x)) -> some_r p l = Ok (existsb q l).
Proof.
  induction l as [|x l IH]; intros H; simpl.
  - reflexivity.
  - rewrite (H x (or_introl eq_refl)). simpl.
    destruct (q x); [reflexivity|].
    apply IH. intros y Hy. apply H. right. exact Hy.
Qed.

Lemma filter_r_pure {A : Type} (p : A -> result bool) (q : A -> bool)
      (l : list A) :
  (forall x, In x l -> p x = Ok (q x)) -> filter_r p l = Ok (filter q l).
Proof.
  induction l as [|x l IH]; intros H; simpl.
  - reflexivity.
  - rewrite (H x (or_introl eq_refl)). simpl.
    rewrite IH by (intros y Hy; apply H; right; exact Hy). simpl.
    reflexivity.
Qed.

Lemma filteredList_typed (m : Mode) (items : list value) :
  m <> all ->
  (forall it, In it items -> exists t, title_of it = Some t) ->
  filteredList m items = Ok (filter (matches m) items).
Proof.
  intros Hm Htyped.
  assert (H : filter_r (fun it =>
              some_r (fun k =>
                (it_title <- get it "title" ;;
                 lowered <- call_toLowerCase toLowerCase
                              (or_else it_title (VStr "")) ;;
                 Ok (includes lowered k))%js) (keywords m)) items
              = Ok (filter (matches m) items)).
  { apply filter_r_pure. intros it Hit.
    destruct (Htyped it Hit) as [t Ht]. unfold matches. rewrite Ht.
    apply some_r_pure. intros k _. unfold title_of in Ht.
    destruct (get it "title") as [v|e]; [|discriminate]. simpl.
    destruct (or_else v (VStr "")); try discriminate.
    injection Ht as ->. reflexivity. }
  destruct m; [contradiction| | |]; exact H.
Qed.

(** C8: with the category "all" the list comes back unchanged; with
    another category, on a list of items of the declared type, the
    result keeps, in order, exactly the items whose title in lower case
    contains a keyword of the category; and "chill" keeps, of "Deep
    Focus Study" and "Relax & Chill Vibes", only the second. *)
Theorem filteredList_spec :
  (forall items, filteredList all items = Ok items)
  /\ (forall m items,
      m <> all ->
      (forall it, In it items -> exists t, title_of it = Some t) ->
      exists keep,
        filteredList m items = Ok (filter keep items) /\
        forall it, In it items ->
          (keep it = true <->
           exists t k, title_of it = Some t /\ In k (keywords m) /\
                       contains (toLowerCase t) k))
  /\ (forall s1 u1 s2 u2,
      filteredList chill [ item "Deep Focus Study" s1 u1;
                           item "Relax & Chill Vibes" s2 u2 ]
      = Ok [ item "Relax & Chill Vibes" s2 u2 ]).
Proof.
  split; [|split].
  - reflexivity.
  - intros m items Hm Htyped. exists (matches m). split.
    + apply filteredList_typed; assumption.
    + intros it Hit. destruct (Htyped it Hit) as [t Ht].
      unfold matches. rewrite Ht, existsb_exists. split.
      * intros [k [Hk Hinc]]. exists t, k. repeat split; try assumption.
        apply includes_spec. exact Hinc.
      * intros [t' [k [Ht' [Hk Hc]]]]. injection Ht' as <-.
        exists k. split; [exact Hk|]. apply includes_spec. exact Hc.
  - intros s1 u1 s2 u2. rewrite filteredList_typed.
    + unfold matches, item. cbn [filter title_of get lookup assoc String.eqb
        Ascii.eqb Bool.eqb or_else truthy Boolean_string].
      rewrite !toLowerCase_ascii by reflexivity. reflexivity.
    + discriminate.
    + intros it [<-|[<-|[]]]; eexists; reflexivity.
Qed.

(** *** [analyzeText] *)

Lemma strip_white_space (t s : string) :
  In t white_space -> strip white_space (t ++ s) = Some s.
Proof.
  unfold white_space. simpl.
  intros H. repeat (destruct H as [<-|H]; [reflexivity|]). destruct H.
Qed.

Lemma white_space_length (t : string) :
  In t white_space -> (1 <= String.length t)%nat.
Proof.
  unfold white_space. simpl.
  intros H. repeat (destruct H as [<-|H]; [simpl; lia|]). destruct H.
Qed.

Lemma append_length (a b : string) :
  String.length (a ++ b) = (String.length a + String.length b)%nat.
Proof. induction a as [|c a IH]; simpl; [reflexivity|now rewrite IH]. Qed.

Lemma strip_all_blank (s : string) :
  blank s ->
  forall fuel, (String.length s <= fuel)%nat ->
               strip_all fuel white_space s = EmptyString.
Proof.
  induction 1 as [|t s Ht Hs IH]; intros fuel Hfuel.
  - destruct fuel; reflexivity.
  - pose proof (white_space_length t Ht) as Hlen.
    rewrite append_length in Hfuel.
    destruct fuel as [|fuel]; [lia|].
    cbn [strip_all]. rewrite (strip_white_space t s Ht). apply IH. lia.
Qed.

Lemma drop_length (n : nat) (s : string) :
  String.length (drop n s) = (String.length s - n)%nat.
Proof.
  revert s. induction n as [|n IH]; intros [|c s]; simpl; try reflexivity.
  apply IH.
Qed.

Lemma startsWith_length (s t : string) :
  startsWith s t = true -> (String.length t <= String.length s)%nat.
Proof.
  intros H. apply startsWith_spec in H. destruct H as [after ->].
  rewrite append_length. lia.
Qed.

(** Stripping a token makes the string shorter. *)
Lemma strip_shorter (tokens : list string) (s s' : string) :
  Forall (fun t => (1 <= String.length t)%nat) tokens ->
  strip tokens s = Some s' -> (String.length s' < String.length s)%nat.
Proof.
  induction 1 as [|t tokens Ht _ IH]; simpl; [discriminate|].
  destruct (startsWith s t) eqn:E; [|exact IH].
  intros H. injection H as <-. rewrite drop_length.
  apply startsWith_length in E. lia.
Qed.

(** The rounds of [strip_all] are enough: nothing is left to strip. *)
Lemma strip_all_done (tokens : list string) :
  Forall (fun t => (1 <= String.length t)%nat) tokens ->
  forall fuel s, (String.length s <= fuel)%nat ->
                 strip tokens (strip_all fuel tokens s) = None.
Proof.
  intros Htokens. induction fuel as [|fuel IH]; intros s Hs; cbn [strip_all].
  - destruct (strip tokens s) as [s'|] eqn:E; [|reflexivity].
    apply (strip_shorter _ _ _ Htokens) in E. lia.
  - destruct (strip tokens s) as [s'|] eqn:E; [|exact E].
    apply IH. apply (strip_shorter _ _ _ Htokens) in E. lia.
Qed.

(** What [trimStart] returns does not begin with white space. *)
Lemma trimStart_done (s : string) : strip white_space (trimStart s) = None.
Proof.
  apply strip_all_done; [|apply le_n].
  apply Forall_forall. exact white_space_length.
Qed.

(** Trimming a string of white space leaves nothing. *)
Lemma trim_blank (s : string) : blank s -> trim s = EmptyString.
Proof.
  intros H. unfold trim, trimStart.
  rewrite (strip_all_blank s H _ (le_n _)). reflexivity.
Qed.

(** C9: on a text that is empty or white space only, [analyzeText]
    returns at once: the log of effects, so the list of requests, and
    every cell of the state are as they were. *)
Theorem analyzeText_blank (st : AppState) (log : list Event) :
  blank (text st) -> analyzeText st log = (Ok tt, st, log).
Proof.
  intros H. unfold analyzeText. rewrite (trim_blank _ H). reflexivity.
Qed.

(** *** [updateResults] *)

Lemma get_field (j : value) (key key' : string) (v : value) :
  get j key = Ok v -> get j key' = Ok (field j key').
Proof.
  unfold field. destruct j; simpl; intros H; try discriminate; reflexivity.
Qed.

(** A response that normalises is recorded: the six cells are set, the
    entry goes in front of the history and the confetti is thrown. *)
Lemma updateResults_ok (j : value) (from : Tab.t) (m : string)
      (st : AppState) (log : list Event) :
  normal_mood j = Ok m ->
  updateResults j from st log =
    (Ok tt, updated j from m (clock (List.length log)) st,
     (log ++ [Pulsed (or_else (lookup EMOJI m) (VStr "✨"))])%list).
Proof.
  unfold normal_mood, updateResults. intros H.
  destruct (get j "mood") as [j_mood|e] eqn:Hget; [|discriminate].
  simpl in H.
  unfold bindH at 1. unfold lift at 1.
  unfold bindH at 1. unfold lift at 1. rewrite H.
  rewrite (get_field j "mood" "emoji" _ Hget).
  rewrite (get_field j "mood" "confidence" _ Hget).
  rewrite (get_field j "mood" "playlist" _ Hget).
  rewrite (get_field j "mood" "probs" _ Hget).
  reflexivity.
Qed.

(** A response that does not normalise changes nothing: the exception
    leaves [updateResults] before the first cell is set. *)
Lemma updateResults_throw (j : value) (from : Tab.t) (e : exn)
      (st : AppState) (log : list Event) :
  normal_mood j = Throw e ->
  updateResults j from st log = (Throw e, st, log).
Proof.
  unfold normal_mood, updateResults. intros H.
  destruct (get j "mood") as [j_mood|e'] eqn:Hget.
  - simpl in H. unfold bindH at 1. unfold lift at 1.
    unfold bindH at 1. unfold lift at 1. rewrite H. reflexivity.
  - simpl in H. injection H as ->. reflexivity.
Qed.




(** *** [analyzeImagesBlobs] *)

Lemma requests_app (l1 l2 : list Event) :
  requests (l1 ++ l2) = (requests l1 ++ requests l2)%list.
Proof.
  induction l1 as [|[r|g] l1 IH]; simpl; [reflexivity| |exact IH].
  rewrite IH. reflexivity.
Qed.




Lemma normal_mood_cases (j : value) :
  (exists m, normal_mood j = Ok m) \/ normal_mood j = Throw TypeError.
Proof.
  unfold normal_mood. destruct j; cbn [get bind].
  1, 2: right; reflexivity.
  all: destruct (or_else _ (VStr "")); cbn [call_toLowerCase];
    try (right; reflexivity); left; eexists; reflexivity.
Qed.



(** *** Normalisation *)





(** *** The stored history *)

(** C6: when nothing is stored under [mood_history], or what is stored
    does not parse, the initialiser of the history does not throw and
    returns the empty list. *)
Theorem initial_history_empty (localStorage : string -> option string) :
  (localStorage "mood_history" = None \/
   exists stored e, localStorage "mood_history" = Some stored /\
                    JSON_parse stored = Throw e) ->
  initial_history localStorage = Ok (VArr []).
Proof.
  unfold initial_history. intros [->|[stored [e [-> Hparse]]]].
  - rewrite JSON_parse_empty_array. reflexivity.
  - destruct (Boolean_string stored).
    + rewrite Hparse. reflexivity.
    + rewrite JSON_parse_empty_array. reflexivity.
Qed.

(** *** Numbers *)

Section NumberFacts.

Local Open Scope Z_scope.

Lemma digits2_size (m : positive) : digits2_pos m = Pos.size m.
Proof. induction m; simpl; congruence. Qed.

Lemma digits2_bounds (m : positive) :
  2 ^ (Zpos (digits2_pos m) - 1) <= Zpos m < 2 ^ Zpos (digits2_pos m).
Proof.
  rewrite digits2_size. split.
  - pose proof (Pos.size_le m) as H.
    assert (H' : 2 ^ Zpos (Pos.size m) <= 2 * Zpos m).
    { rewrite <- Pos2Z.inj_pow. change (2 * Zpos m) with (Zpos m~0).
      apply Pos2Z.pos_le_pos. exact H. }
    replace (Zpos (Pos.size m)) with (Z.succ (Zpos (Pos.size m) - 1)) in H' by lia.
    rewrite Z.pow_succ_r in H' by lia. lia.
  - pose proof (Pos.size_gt m) as H.
    rewrite <- Pos2Z.inj_pow. apply Pos2Z.pos_lt_pos. exact H.
Qed.

Lemma shr_1_m (mrs : shr_record) :
  0 <= shr_m mrs -> shr_m (shr_1 mrs) = shr_m mrs / 2.
Proof.
  destruct mrs as [m r s]. simpl. intros H.
  rewrite <- Z.div2_div.
  destruct m as [|[p|p|]|p]; try reflexivity. lia.
Qed.

Lemma iter_shr_1_m (p : positive) :
  forall mrs, 0 <= shr_m mrs ->
    shr_m (iter_pos shr_1 p mrs) = shr_m mrs / 2 ^ Zpos p.
Proof.
  assert (Hpow : forall q, 0 < 2 ^ Zpos q).
  { intros q. apply Z.pow_pos_nonneg; lia. }
  induction p as [p IH|p IH|]; intros mrs H; cbn [iter_pos].
  - assert (H1 : 0 <= shr_m (shr_1 mrs)).
    { rewrite shr_1_m by exact H. apply Z.div_pos; lia. }
    assert (H2 : 0 <= shr_m (iter_pos shr_1 p (shr_1 mrs))).
    { rewrite IH by exact H1. apply Z.div_pos; [exact H1|apply Hpow]. }
    rewrite (IH _ H2), (IH _ H1), (shr_1_m _ H).
    rewrite !Z.div_div by (try apply Hpow; lia).
    f_equal. replace (Zpos p~1) with (1 + Zpos p + Zpos p) by lia.
    rewrite !Z.pow_add_r by lia. rewrite Z.pow_1_r. lia.
  - assert (H2 : 0 <= shr_m (iter_pos shr_1 p mrs)).
    { rewrite IH by exact H. apply Z.div_pos; [exact H|apply Hpow]. }
    rewrite (IH _ H2), (IH _ H).
    rewrite !Z.div_div by (try apply Hpow; lia).
    f_equal. replace (Zpos p~0) with (Zpos p + Zpos p) by lia.
    rewrite Z.pow_add_r by lia. reflexivity.
  - rewrite shr_1_m by exact H. reflexivity.
Qed.

Lemma shr_m_of_loc (m : Z) (l : location) : shr_m (shr_record_of_loc m l) = m.
Proof. destruct l as [|[]]; reflexivity. Qed.

(** Shifting to the target exponent keeps a positive mantissa positive,
    as long as the exponent is not below the least one. *)
Lemma shr_fexp_positive (m e : Z) (l : location) :
  0 < m -> emin <= e ->
  0 < shr_m (fst (shr_fexp prec emax m e l)) /\
  emin <= snd (shr_fexp prec emax m e l).
Proof.
  intros Hm He. unfold shr_fexp, shr.
  destruct m as [|m|m]; try lia.
  pose proof (digits2_bounds m) as [Hlo _].
  cbn [Zdigits2].
  set (d := Zpos (digits2_pos m)) in *.
  assert (Hd : 0 < d) by (unfold d; lia).
  destruct (fexp prec emax (d + e) - e) as [|p|p] eqn:Hn; cbn [fst snd].
  - rewrite shr_m_of_loc. lia.
  - unfold fexp, SpecFloat.emin, prec, emax, emin in *.
    assert (Hp : Zpos p = d - 53) by lia.
    rewrite iter_shr_1_m by (rewrite shr_m_of_loc; lia).
    rewrite shr_m_of_loc. split; [|lia].
    apply Z.div_str_pos. split; [apply Z.pow_pos_nonneg; lia|].
    apply Z.le_trans with (2 ^ (d - 1)); [|exact Hlo].
    apply Z.pow_le_mono_r; lia.
  - rewrite shr_m_of_loc. lia.
Qed.

Lemma round_nearest_even_positive (m : Z) (l : location) :
  0 < m -> 0 < round_nearest_even m l.
Proof.
  intros H. destruct l as [|[]]; simpl; try lia. destruct (Z.even m); lia.
Qed.

(** Rounding a positive mantissa with sign [s] gives a number of sign [s]
    that is not a zero. *)
Lemma binary_round_aux_positive (s : bool) (m e : Z) (l : location) :
  0 < m -> emin <= e ->
  (exists m' e', binary_round_aux prec emax s m e l = S754_finite s m' e') \/
  binary_round_aux prec emax s m e l = S754_infinity s.
Proof.
  intros Hm He. unfold binary_round_aux.
  pose proof (shr_fexp_positive m e l Hm He) as [H1 H1e].
  destruct (shr_fexp prec emax m e l) as [mrs' e']. cbn [fst snd] in *.
  pose proof (round_nearest_even_positive _ (loc_of_shr_record mrs') H1) as H2.
  pose proof (shr_fexp_positive _ e' loc_Exact H2 H1e) as [H3 _].
  destruct (shr_fexp prec emax _ e' loc_Exact) as [mrs'' e'']. cbn [fst snd] in *.
  destruct (shr_m mrs'') as [|m''|m'']; try lia.
  destruct (e'' <=? emax - prec); [left; eauto|right; reflexivity].
Qed.

Lemma shl_align_exponent (m : positive) (e e' : Z) :
  emin <= e -> emin <= e' -> emin <= snd (shl_align m e e').
Proof.
  intros He He'. unfold shl_align. destruct (e' - e); cbn [snd]; lia.
Qed.

Lemma binary_round_positive (s : bool) (m : positive) (e : Z) :
  emin <= e ->
  (exists m' e', binary_round prec emax s m e = S754_finite s m' e') \/
  binary_round prec emax s m e = S754_infinity s.
Proof.
  intros He. unfold binary_round.
  pose proof (shl_align_exponent m e (fexp prec emax (Zpos (digits2_pos m) + e)) He) as H.
  destruct (shl_align m e _) as [mz ez]. cbn [snd] in H.
  apply binary_round_aux_positive; [lia|].
  apply H. unfold fexp, SpecFloat.emin, prec, emax, emin. lia.
Qed.

(** The sign of what [binary_normalize] makes of an integer. *)
Lemma binary_normalize_sign (z e : Z) :
  emin <= e ->
  ltb (num 0) (binary_normalize prec emax z e false) = (0 <? z).
Proof.
  intros He. destruct z as [|p|p]; simpl binary_normalize.
  - reflexivity.
  - destruct (binary_round_positive false p e He) as [[m' [e' ->]]| ->]; reflexivity.
  - destruct (binary_round_positive true p e He) as [[m' [e' ->]]| ->]; reflexivity.
Qed.

Lemma shl_align_value (m : positive) (e ez : Z) :
  ez <= e -> Zpos (fst (shl_align m e ez)) = Zpos m * 2 ^ (e - ez).
Proof.
  intros H. unfold shl_align.
  destruct (ez - e) as [|d|d] eqn:Hd; cbn [fst].
  - replace (e - ez) with 0 by lia. lia.
  - lia.
  - replace (e - ez) with (Zpos d) by lia.
    rewrite <- Z.shiftl_mul_pow2 by lia. cbn [Z.shiftl].
    apply (Pos.iter_swap_gen _ _ Zpos xO (Z.mul 2)). reflexivity.
Qed.

(** What validity says of a finite number: the exponent is at least the
    least one, the mantissa has at most 53 digits, and exactly 53 above
    the least exponent. *)
Lemma valid_finite (s : bool) (m : positive) (e : Z) :
  valid (S754_finite s m e) = true ->
  emin <= e /\ Zpos m < 2 ^ 53 /\ (emin < e -> 2 ^ 52 <= Zpos m).
Proof.
  unfold valid, valid_binary, bounded, canonical_mantissa, fexp,
    SpecFloat.emin, prec, emax, emin.
  intros H. apply andb_true_iff in H. destruct H as [H _].
  apply Z.eqb_eq in H.
  pose proof (digits2_bounds m) as [Hlo Hhi].
  set (d := Zpos (digits2_pos m)) in *.
  split; [lia|]. split.
  - apply Z.lt_le_trans with (2 ^ d); [exact Hhi|].
    apply Z.pow_le_mono_r; lia.
  - intros He. replace 52 with (d - 1) by lia. exact Hlo.
Qed.

(** Closes a goal [(0 <? z) = b] by linear arithmetic on [z]. *)
Ltac sign_test :=
  cbn [CompOpp]; first [apply Z.ltb_lt; lia | apply Z.ltb_ge; lia].

(** The sign of a difference is the order of its operands. *)
Lemma sub_positive (x y : number) :
  proper x = true -> proper y = true ->
  ltb (num 0) (sub y x) = ltb x y.
Proof.
  unfold proper. intros Hx Hy.
  apply andb_true_iff in Hx. destruct Hx as [Vx Nx].
  apply andb_true_iff in Hy. destruct Hy as [Vy Ny].
  destruct x as [sx|sx| |sx mx ex]; try discriminate;
    destruct y as [sy|sy| |sy my ey]; try discriminate;
    try (destruct sx, sy; reflexivity);
    try (destruct sx; reflexivity);
    try (destruct sy; reflexivity).
  destruct (valid_finite _ _ _ Vx) as [Ex [Mx Nx']].
  destruct (valid_finite _ _ _ Vy) as [Ey [My Ny']].
  unfold sub, SFsub. rewrite binary_normalize_sign by lia.
  rewrite !shl_align_value by lia.
  unfold ltb, SFltb, SFcompare, cond_Zopp.
  assert (P2 : forall k, 1 <= k -> 2 <= 2 ^ k).
  { intros k Hk. change 2 with (2 ^ 1) at 1. apply Z.pow_le_mono_r; lia. }
  destruct (Z.compare_spec ex ey) as [E|E|E].
  - subst ey. rewrite Z.min_id, Z.sub_diag, Z.pow_0_r, !Z.mul_1_r.
    change (Pos.compare_cont Eq mx my) with (Pos.compare mx my).
    destruct (Pos.compare_spec mx my) as [M|M|M]; destruct sx, sy; sign_test.
  - rewrite (Z.min_r ey ex) by lia. rewrite Z.sub_diag, Z.pow_0_r, Z.mul_1_r.
    pose proof (P2 (ey - ex) ltac:(lia)) as Hp.
    pose proof (Ny' ltac:(lia)) as Hmy.
    assert (Zpos mx < Zpos my * 2 ^ (ey - ex)) by nia.
    destruct sx, sy; sign_test.
  - rewrite (Z.min_l ey ex) by lia. rewrite Z.sub_diag, Z.pow_0_r, Z.mul_1_r.
    pose proof (P2 (ex - ey) ltac:(lia)) as Hp.
    pose proof (Nx' ltac:(lia)) as Hmx.
    assert (Zpos my < Zpos mx * 2 ^ (ex - ey)) by nia.
    destruct sx, sy; sign_test.
Qed.

Lemma compare_flip (x y : number) :
  SFcompare y x = option_map CompOpp (SFcompare x y).
Proof.
  destruct x as [sx|sx| |sx mx ex], y as [sy|sy| |sy my ey];
    try reflexivity; try (destruct sx; reflexivity);
    try (destruct sy; reflexivity); try (destruct sx, sy; reflexivity).
  unfold SFcompare.
  rewrite (Z.compare_antisym ex ey).
  destruct sx, sy; cbn [option_map CompOpp]; try reflexivity;
    destruct (ex ?= ey); cbn [CompOpp]; try reflexivity;
    rewrite ?CompOpp_involutive, Pos.compare_cont_antisym; reflexivity.
Qed.

(** Two numbers, neither [NaN], are comparable. *)
Lemma leb_total (x y : number) :
  is_nan x = false -> is_nan y = false -> ltb x y = false -> leb y x = true.
Proof.
  unfold ltb, leb, SFltb, SFleb. intros Hx Hy. rewrite (compare_flip x y).
  destruct (SFcompare x y) as [[]|] eqn:E; cbn; try reflexivity; try discriminate.
  intros _. destruct x, y; try discriminate; simpl in E;
    repeat match goal with s : bool |- _ => destruct s end; discriminate.
Qed.

Lemma ltb_leb (x y : number) : ltb x y = true -> leb x y = true.
Proof.
  unfold ltb, leb, SFltb, SFleb. destruct (SFcompare x y) as [[]|]; congruence.
Qed.

Lemma leb_trans (x y z : number) :
  leb x y = true -> leb y z = true -> leb x z = true.
Proof.
  unfold leb, SFleb.
  destruct x as [sx|sx| |sx mx ex], y as [sy|sy| |sy my ey],
           z as [sz|sz| |sz mz ez];
    unfold SFcompare;
    repeat match goal with s : bool |- _ => destruct s end;
    try (intros; reflexivity); try (intros; discriminate).
  all: change (Pos.compare_cont Eq) with Pos.compare.
  all: destruct (Z.compare_spec ex ey), (Z.compare_spec ey ez),
         (Z.compare_spec ex ez); try lia;
       try (intros; reflexivity); try (intros; discriminate).
  all: destruct (Pos.compare_spec mx my), (Pos.compare_spec my mz),
         (Pos.compare_spec mx mz); try lia; cbn [CompOpp];
       try (intros; reflexivity); try (intros; discriminate).
Qed.

End NumberFacts.

(** *** The confidence chart *)


Lemma insert_by_perm {A : Type} (cmp : A -> A -> number) (x : A) (l : list A) :
  Permutation (insert_by cmp x l) (x :: l).
Proof.
  induction l as [|y l IH]; cbn [insert_by].
  - apply Permutation_refl.
  - destruct (ltb (num 0) (cmp x y)).
    + apply Permutation_trans with (y :: x :: l).
      * apply perm_skip. exact IH.
      * apply perm_swap.
    + apply Permutation_refl.
Qed.

(** Sorting rearranges: nothing is lost and nothing is added. *)
Lemma sort_by_perm {A : Type} (cmp : A -> A -> number) (l : list A) :
  Permutation (sort_by cmp l) l.
Proof.
  induction l as [|x l IH]; cbn [sort_by fold_right].
  - apply Permutation_refl.
  - apply Permutation_trans with (x :: sort_by cmp l).
    + apply insert_by_perm.
    + apply perm_skip. exact IH.
Qed.

Lemma proper_not_nan (n : number) : proper n = true -> is_nan n = false.
Proof.
  unfold proper. intros H. apply andb_true_iff in H. destruct H as [_ H].
  destruct (is_nan n); [discriminate|reflexivity].
Qed.

Lemma insert_by_hd (x y : string * number) (l : list (string * number)) :
  above y x -> HdRel above y l -> HdRel above y (insert_by by_probability x l).
Proof.
  intros Hyx Hl. destruct l as [|z l]; cbn [insert_by].
  - constructor. exact Hyx.
  - destruct (ltb (num 0) (by_probability x z)).
    + constructor. inversion Hl. assumption.
    + constructor. exact Hyx.
Qed.

Lemma insert_by_sorted (x : string * number) (l : list (string * number)) :
  proper (snd x) = true -> proper_entries l ->
  Sorted above l -> Sorted above (insert_by by_probability x l).
Proof.
  intros Hx Hl Hs. induction l as [|y l IH]; cbn [insert_by].
  - constructor; constructor.
  - inversion Hl as [|? ? Hy Hl']; subst. inversion Hs as [|? ? Hs' Hhd]; subst.
    unfold by_probability at 1. rewrite (sub_positive _ _ Hx Hy).
    destruct (ltb (snd x) (snd y)) eqn:E.
    + constructor.
      * apply IH; assumption.
      * apply insert_by_hd; [|exact Hhd]. apply ltb_leb. exact E.
    + constructor; [exact Hs|]. constructor.
      apply leb_total; [apply proper_not_nan; exact Hx
                       |apply proper_not_nan; exact Hy|exact E].
Qed.

(** Sorting by [b[1] - a[1]] puts proper numbers in descending order. *)
Lemma sort_by_descending (p : Probs) :
  proper_entries p -> descending (sort_by by_probability p).
Proof.
  intros Hp. apply Sorted_StronglySorted.
  - intros a b c Hab Hbc. exact (leb_trans _ _ _ Hbc Hab).
  - induction p as [|x p IH]; cbn [sort_by fold_right].
    + constructor.
    + inversion Hp as [|? ? Hx Hp']; subst.
      apply insert_by_sorted; [exact Hx| |apply IH; exact Hp'].
      unfold proper_entries.
      apply (Permutation_Forall (Permutation_sym (sort_by_perm _ p))).
      exact Hp'.
Qed.



Lemma clamp01_falsy (n : number) :
  Boolean_number n = false -> clamp01 n = num 0.
Proof.
  unfold clamp01. intros ->. reflexivity.
Qed.

Lemma clamp01_negative (n : number) :
  ltb n (num 0) = true -> clamp01 n = num 0.
Proof.
  destruct n as [s|s| |s m e]; try discriminate.
  - destruct s; [reflexivity|discriminate].
  - destruct s; [reflexivity|discriminate].
Qed.

Lemma clamp01_inside (n : number) :
  ltb (num 0) n = true -> leb n (num 1) = true -> clamp01 n = n.
Proof.
  destruct n as [s|s| |s m e]; try discriminate.
  - destruct s; discriminate.
  - destruct s; [discriminate|]. intros _ Hle.
    unfold clamp01. cbn [Boolean_number]. unfold Math_min.
    pose proof (compare_flip (S754_finite false m e) (num 1)) as Hflip.
    unfold leb, SFleb in Hle.
    change (num 1) with (S754_finite false 4503599627370496 (-52)) in *.
    destruct (SFcompare (S754_finite false m e)
                        (S754_finite false 4503599627370496 (-52)))
      as [[]|]; try discriminate;
      rewrite Hflip; cbn [option_map CompOpp]; cbv iota; reflexivity.
Qed.

Lemma clamp01_above (n : number) :
  ltb (num 1) n = true -> clamp01 n = num 1.
Proof.
  destruct n as [s|s| |s m e]; try discriminate.
  - destruct s; [discriminate|reflexivity].
  - destruct s; [discriminate|]. intros Hlt.
    unfold clamp01. cbn [Boolean_number]. unfold Math_min.
    unfold ltb, SFltb in Hlt.
    change (num 1) with (S754_finite false 4503599627370496 (-52)) in *.
    destruct (SFcompare (S754_finite false 4503599627370496 (-52))
                        (S754_finite false m e))
      as [[]|]; try discriminate. reflexivity.
Qed.


(** ** Further properties *)

(** *** Media events *)

Lemma live_app (l1 l2 : list MediaEvent) :
  live (l1 ++ l2) = fold_left live_step l2 (live l1).
Proof. unfold live. apply fold_left_app. Qed.

(** Stopping every track of a stream leaves none of them live. *)
Lemma stop_all (s : MediaStream) :
  forall acc, (forall t, In t acc -> In t s) ->
              fold_left live_step (map Stopped s) acc = [].
Proof.
  induction s as [|a s IH]; intros acc Hacc.
  - destruct acc as [|t acc]; [reflexivity|].
    destruct (Hacc t (or_introl eq_refl)).
  - cbn [map fold_left live_step]. apply IH. intros t Ht.
    apply in_remove in Ht. destruct Ht as [Ht Hne].
    destruct (Hacc t Ht) as [->|H]; [contradiction|exact H].
Qed.

Lemma photos_app (l1 l2 : list MediaEvent) :
  photos (l1 ++ l2) = (photos l1 ++ photos l2)%list.
Proof.
  induction l1 as [|ev l1 IH]; [reflexivity|].
  destruct ev; cbn [photos app]; rewrite IH; reflexivity.
Qed.

Lemma draws_app (l1 l2 : list MediaEvent) :
  draws (l1 ++ l2) = (draws l1 ++ draws l2)%list.
Proof.
  induction l1 as [|ev l1 IH]; [reflexivity|].
  destruct ev; cbn [draws app]; rewrite IH; reflexivity.
Qed.

Lemma or_size_positive (x fallback : nat) :
  (0 < fallback)%nat -> (0 < or_size x fallback)%nat.
Proof.
  intros H. unfold or_size. destruct (Nat.eqb_spec x 0); lia.
Qed.

(** Stopping the tracks of a stream leaves the other tracks live. *)
Lemma stop_others (s : MediaStream) :
  forall others own,
    (forall t, In t others -> ~ In t s) ->
    (forall t, In t own -> In t s) ->
    fold_left live_step (map Stopped s) (others ++ own)%list = others.
Proof.
  induction s as [|a s IH]; intros others own Hothers Hown.
  - destruct own as [|t own]; [apply app_nil_r|].
    destruct (Hown t (or_introl eq_refl)).
  - cbn [map fold_left live_step]. rewrite remove_app.
    rewrite (@notin_remove Track Nat.eq_dec others a);
      [|intros Hin; apply (Hothers a Hin); left; reflexivity].
    apply IH.
    + intros t Ht Hin. apply (Hothers t Ht). right. exact Hin.
    + intros t Ht. apply in_remove in Ht. destruct Ht as [Ht Hne].
      destruct (Hown t Ht) as [->|H]; [contradiction|exact H].
Qed.

(** *** The backend calls, to their end *)


(** An attempt that is answered with a result records it: the request
    is logged, the cells are set and the confetti follows. *)
Lemma attempt_ok (r : Request) (from : Tab.t) (st : AppState)
      (log : list Event) (j : value) (m : string) :
  recorded (server (count_fetches log) r) = Some (j, m) ->
  attempt r from st log
  = (Ok tt,
     updated j from m (clock (S (List.length log))) st,
     (log ++ [Fetched r; Pulsed (or_else (lookup EMOJI m) (VStr "✨"))])%list).
Proof.
  unfold recorded, attempt. intros H. unfold bindH at 1. unfold fetch.
  destruct (server (count_fetches log) r) as [|res]; [discriminate|].
  unfold bindH at 1. unfold res_json.
  destruct (json res) as [j'|]; [|discriminate].
  destruct (normal_mood j') as [m'|e] eqn:Hm; [|discriminate].
  injection H as -> ->. unfold ret.
  rewrite (updateResults_ok j from m st _ Hm).
  rewrite length_app, Nat.add_comm, <- app_assoc. reflexivity.
Qed.

(** An attempt that throws has logged its request and changed nothing. *)
Lemma attempt_throw (r : Request) (from : Tab.t) (st : AppState)
      (log : list Event) :
  recorded (server (count_fetches log) r) = None ->
  exists e, attempt r from st log = (Throw e, st, (log ++ [Fetched r])%list).
Proof.
  unfold recorded, attempt. intros H. unfold bindH at 1. unfold fetch.
  destruct (server (count_fetches log) r) as [|res].
  - exists NetworkError. reflexivity.
  - unfold bindH at 1. unfold res_json.
    destruct (json res) as [j|].
    + destruct (normal_mood j) as [m|e] eqn:Hm; [discriminate|].
      exists e. unfold ret. rewrite (updateResults_throw j from e st _ Hm).
      reflexivity.
    + exists SyntaxError. reflexivity.
Qed.

Lemma count_fetches_app (l1 l2 : list Event) :
  count_fetches (l1 ++ l2) = (count_fetches l1 + count_fetches l2)%nat.
Proof. unfold count_fetches. rewrite filter_app, length_app. reflexivity. Qed.

(** [analyzeText] on a text that is not blank, in full. *)
Lemma analyzeText_run (st : AppState) (log : list Event) :
  Boolean_string (trim (text st)) = true ->
  let r := text_request (text st) in
  analyzeText st log =
    match recorded (server (count_fetches log) r) with
    | Some (j, m) =>
        (Ok tt,
         setLoading false (updated j Tab.text m (clock (S (List.length log))) st),
         (log ++ [Fetched r; Pulsed (or_else (lookup EMOJI m) (VStr "✨"))])%list)
    | None =>
        (Ok tt,
         setLoading false (setToast (Some "Failed to analyze text") st),
         (log ++ [Fetched r])%list)
    end.
Proof.
  intros Htext r. unfold analyzeText. rewrite Htext. cbn [negb].
  change (bindH (fetch (text_request (text st))) _) with (attempt r Tab.text).
  unfold bindH at 1. unfold modify at 1. unfold finallyH, tryH.
  destruct (recorded (server (count_fetches log) r)) as [[j m]|] eqn:Hrec.
  - rewrite (attempt_ok r Tab.text (setLoading true st) log j m Hrec).
    reflexivity.
  - destruct (attempt_throw r Tab.text (setLoading true st) log Hrec)
      as [e ->].
    reflexivity.
Qed.

(** X1: a text that is not blank is sent once, as it was typed (not
    trimmed), to [/api/predict/text]; whatever the service does,
    [analyzeText] does not throw and leaves [loading] false. *)
Theorem analyzeText_sends_once (st : AppState) (log : list Event) :
  Boolean_string (trim (text st)) = true ->
  fst (fst (analyzeText st log)) = Ok tt /\
  loading (snd (fst (analyzeText st log))) = false /\
  requests (snd (analyzeText st log))
  = (requests log ++ [text_request (text st)])%list /\
  body (text_request (text st)) = JSON_body (VObj [("text", VStr (text st))]).
Proof.
  intros Htext. rewrite (analyzeText_run st log Htext).
  destruct (recorded _) as [[j m]|]; cbn [fst snd];
    (split; [reflexivity|]); (split; [reflexivity|]);
    (split; [|reflexivity]); rewrite requests_app; reflexivity.
Qed.



(** [analyzeImagesBlobs], in full. *)
Lemma analyzeImagesBlobs_run (blobs : list Blob) (from : Tab.t)
      (st : AppState) (log : list Event) :
  let r1 := images_request blobs in
  let glyph m := Pulsed (or_else (lookup EMOJI m) (VStr "✨")) in
  let failed := setLoading false (setToast (Some "Failed to analyze image") st) in
  analyzeImagesBlobs blobs from st log =
    match recorded (server (count_fetches log) r1) with
    | Some (j, m) =>
        (Ok tt,
         setLoading false (updated j from m (clock (S (List.length log))) st),
         (log ++ [Fetched r1; glyph m])%list)
    | None =>
        match blobs with
        | [] => (Ok tt, failed, (log ++ [Fetched r1])%list)
        | blob0 :: _ =>
            let r2 := image_request blob0 in
            match recorded (server (S (count_fetches log)) r2) with
            | Some (j, m) =>
                (Ok tt,
                 setLoading false
                   (updated j from m (clock (S (S (List.length log)))) st),
                 (log ++ [Fetched r1; Fetched r2; glyph m])%list)
            | None => (Ok tt, failed, (log ++ [Fetched r1; Fetched r2])%list)
            end
        end
    end.
Proof.
  intros r1 glyph failed. unfold analyzeImagesBlobs.
  change (bindH (fetch (images_request blobs)) _) with (attempt r1 from).
  unfold bindH at 1. unfold modify at 1. unfold finallyH. unfold tryH at 1.
  destruct (recorded (server (count_fetches log) r1)) as [[j m]|] eqn:Hrec1.
  - rewrite (attempt_ok r1 from (setLoading true st) log j m Hrec1).
    reflexivity.
  - destruct (attempt_throw r1 from (setLoading true st) log Hrec1) as [e ->].
    destruct blobs as [|blob0 rest].
    + reflexivity.
    + change (bindH (fetch (image_request blob0)) _)
        with (attempt (image_request blob0) from).
      unfold tryH.
      assert (Hcount : count_fetches (log ++ [Fetched r1])
                       = S (count_fetches log)).
      { rewrite count_fetches_app. cbn. apply Nat.add_1_r. }
      destruct (recorded (server (S (count_fetches log))
                            (image_request blob0))) as [[j m]|] eqn:Hrec2.
      * rewrite <- Hcount in Hrec2.
        rewrite (attempt_ok _ from _ _ j m Hrec2).
        rewrite length_app, Nat.add_1_r, <- app_assoc. reflexivity.
      * rewrite <- Hcount in Hrec2.
        destruct (attempt_throw _ from (setLoading true st) _ Hrec2) as [e2 ->].
        rewrite <- app_assoc. reflexivity.
Qed.

(** The requests of [analyzeImagesBlobs]: the batch, then at most the
    fallback for the first frame. *)
Lemma analyzeImagesBlobs_requests (blobs : list Blob) (from : Tab.t)
      (st : AppState) (log : list Event) :
  let sent := requests (snd (analyzeImagesBlobs blobs from st log)) in
  sent = (requests log ++ [images_request blobs])%list \/
  exists blob0 rest,
    blobs = blob0 :: rest /\
    sent = (requests log ++ [images_request blobs; image_request blob0])%list.
Proof.
  cbv zeta. rewrite analyzeImagesBlobs_run.
  destruct (recorded (server (count_fetches log) (images_request blobs)))
    as [[j m]|].
  - left. cbn [snd]. rewrite requests_app. reflexivity.
  - destruct blobs as [|blob0 rest].
    + left. cbn [snd]. rewrite requests_app. reflexivity.
    + right. exists blob0, rest. split; [reflexivity|]. cbv zeta.
      destruct (recorded (server (S (count_fetches log))
                            (image_request blob0))) as [[j m]|];
        cbn [snd]; rewrite requests_app; reflexivity.
Qed.

(** What an analysis leaves of the cells it does not own. *)
Lemma analyzeImagesBlobs_cells (blobs : list Blob) (from : Tab.t)
      (st : AppState) (log : list Event) :
  let run := analyzeImagesBlobs blobs from st log in
  fst (fst run) = Ok tt /\
  loading (snd (fst run)) = false /\
  cameraOn (snd (fst run)) = cameraOn st.
Proof.
  cbv zeta. rewrite analyzeImagesBlobs_run.
  destruct (recorded (server (count_fetches log) (images_request blobs)))
    as [[j m]|]; [repeat split|].
  destruct blobs as [|blob0 rest]; [repeat split|]. cbv zeta.
  destruct (recorded (server (S (count_fetches log)) (image_request blob0)))
    as [[j m]|]; repeat split.
Qed.

(** X3: [analyzeImagesBlobs] always comes to an end without throwing and
    with [loading] false, whatever the frames and the service.  It sends
    the batch request first, with all the frames, and at most one more
    request; with no frame at all it never sends a second one. *)
Theorem analyzeImagesBlobs_settles (blobs : list Blob) (from : Tab.t)
        (st : AppState) (log : list Event) :
  let run := analyzeImagesBlobs blobs from st log in
  fst (fst run) = Ok tt /\
  loading (snd (fst run)) = false /\
  (requests (snd run) = (requests log ++ [images_request blobs])%list \/
   exists blob0 rest,
     blobs = blob0 :: rest /\
     requests (snd run)
     = (requests log ++ [images_request blobs; image_request blob0])%list).
Proof.
  intros run. unfold run. rewrite analyzeImagesBlobs_run.
  destruct (recorded (server (count_fetches log) (images_request blobs)))
    as [[j m]|].
  - cbn [fst snd]. repeat split. left. rewrite requests_app. reflexivity.
  - destruct blobs as [|blob0 rest].
    + cbn [fst snd]. repeat split. left. rewrite requests_app. reflexivity.
    + cbv zeta.
      destruct (recorded (server (S (count_fetches log))
                            (image_request blob0))) as [[j m]|];
        cbn [fst snd]; repeat split; right; exists blob0, rest;
        (split; [reflexivity|]); rewrite requests_app; reflexivity.
Qed.



(** X25: the two analyses talk to the prediction service only: every
    request they add to the log is a POST to a path under
    [/api/predict/] of [API]. *)
Theorem requests_are_posts (blobs : list Blob) (from : Tab.t)
        (st : AppState) (log : list Event) (r : Request) :
  In r (requests (snd (analyzeText st log))) \/
  In r (requests (snd (analyzeImagesBlobs blobs from st log))) ->
  In r (requests log) \/
  (method r = "POST" /\
   startsWith (url r) "http://127.0.0.1:8000/api/predict/" = true).
Proof.
  intros [Hin|Hin].
  - destruct (Boolean_string (trim (text st))) eqn:Htext.
    + rewrite (analyzeText_run st log Htext) in Hin.
      destruct (recorded _) as [[j m]|]; cbn [snd] in Hin;
        rewrite requests_app in Hin; apply in_app_or in Hin;
        (destruct Hin as [Hin|[<-|[]]]; [left; exact Hin|right]);
        split; reflexivity.
    + unfold analyzeText in Hin. rewrite Htext in Hin. left. exact Hin.
  - destruct (analyzeImagesBlobs_requests blobs from st log)
      as [H|[blob0 [rest [_ H]]]]; rewrite H in Hin;
      apply in_app_or in Hin.
    + destruct Hin as [Hin|[<-|[]]]; [left; exact Hin|right].
      split; reflexivity.
    + destruct Hin as [Hin|[<-|[<-|[]]]]; [left; exact Hin|right|right];
        split; reflexivity.
Qed.

(** *** The form of the batch request *)

Lemma append_cancel_r (a b c : string) : a ++ c = b ++ c -> a = b.
Proof.
  revert b. induction a as [|x a IH]; intros [|y b] H.
  - reflexivity.
  - apply (f_equal String.length) in H. cbn in H.
    rewrite append_length in H. lia.
  - apply (f_equal String.length) in H. cbn in H.
    rewrite append_length in H. lia.
  - cbn in H. injection H as -> H. rewrite (IH b H). reflexivity.
Qed.

Lemma decimal_injective (a b : nat) : decimal a = decimal b -> a = b.
Proof.
  unfold decimal. intros H.
  assert (Hnil : forall n, Nat.to_uint n <> Decimal.Nil).
  { intros n Hn. pose proof (DecimalNat.Unsigned.of_to n) as Hof.
    rewrite Hn in Hof. cbn in Hof. subst n. discriminate. }
  apply (f_equal DecimalString.NilZero.uint_of_string) in H.
  rewrite !DecimalString.NilZero.usu in H by apply Hnil.
  injection H as H.
  rewrite <- (DecimalNat.Unsigned.of_to a), <- (DecimalNat.Unsigned.of_to b).
  rewrite H. reflexivity.
Qed.

Lemma append_files_names (blobs : list Blob) :
  forall i,
    map snd (append_files blobs i)
    = map (fun k => "frame" ++ decimal k ++ ".jpg") (seq i (List.length blobs)).
Proof.
  induction blobs as [|b blobs IH]; intros i; [reflexivity|].
  cbn [append_files map List.length seq snd]. rewrite IH. reflexivity.
Qed.

(** X15: the form data of the batch request has one entry for each
    frame, in the order of the frames, all under the field [files]; the
    k-th is named [frame<k>.jpg], so no two entries share a file name. *)
Theorem append_files_entries (blobs : list Blob) :
  let fd := append_files blobs 0 in
  map (fun entry => snd (fst entry)) fd = blobs /\
  Forall (fun entry => fst (fst entry) = "files") fd /\
  (forall k blob, nth_error blobs k = Some blob ->
                  nth_error fd k
                  = Some ("files", blob, "frame" ++ decimal k ++ ".jpg")) /\
  NoDup (map snd fd).
Proof.
  cbv zeta. split; [|split; [|split]].
  - generalize 0%nat. induction blobs as [|b blobs IH]; intros i;
      [reflexivity|].
    cbn [append_files map fst snd]. rewrite IH. reflexivity.
  - generalize 0%nat. induction blobs as [|b blobs IH]; intros i;
      constructor; [reflexivity|apply IH].
  - assert (H : forall i k blob,
               nth_error blobs k = Some blob ->
               nth_error (append_files blobs i) k
               = Some ("files", blob, "frame" ++ decimal (i + k) ++ ".jpg")).
    { induction blobs as [|b blobs IH]; intros i [|k] blob Hk;
        try discriminate.
      - injection Hk as ->. rewrite Nat.add_0_r. reflexivity.
      - cbn [append_files nth_error]. rewrite (IH (S i) k blob Hk).
        rewrite Nat.add_succ_r. reflexivity. }
    exact (H 0%nat).
  - rewrite append_files_names. apply Finite.Injective_map_NoDup.
    + intros a b H. cbn in H. injection H as H.
      apply decimal_injective. apply (append_cancel_r _ _ ".jpg").
      exact H.
    + apply seq_NoDup.
Qed.

(** *** What [updateResults] leaves *)


Lemma or_else_default_truthy (a d : value) :
  truthy d = true -> truthy (or_else a d) = true.
Proof.
  intros Hd. unfold or_else. destruct (truthy a) eqn:Ha; assumption.
Qed.

(** X17: after a response is recorded the emoji of the new history
    entry is truthy, and so is the confetti glyph; when that emoji is
    stored as it is, the emoji cell holds it too, and the fallbacks of
    the view, [emoji || EMOJI[mood] || "🎧"], do not come into play.
    The new entry never has an empty mood: a response without a mood is
    entered as "neutral", while the results panel, which tests the
    [mood] cell, stays on its placeholder. *)
Theorem updateResults_view (j : value) (from : Tab.t)
        (st st' : AppState) (log log' : list Event) :
  updateResults j from st log = (Ok tt, st', log') ->
  (exists glyph, log' = (log ++ [Pulsed glyph])%list /\ truthy glyph = true) /\
  (exists row, hd_error (history st') = Some row /\
               HistoryRow.mood row <> EmptyString /\
               truthy (HistoryRow.emoji row) = true /\
               (stored_as_is (HistoryRow.emoji row) = true ->
                emoji st' = HistoryRow.emoji row /\
                shown_emoji st' = emoji st') /\
               (mood st' = EmptyString ->
                HistoryRow.mood row = "neutral" /\
                confidence_line st' = NotRendered /\
                confidence_breakdown st' = NotRendered)).
Proof.
  intros Hrun.
  destruct (normal_mood_cases j) as [[m Hm]|Hthrow];
    [|rewrite (updateResults_throw j from _ st log Hthrow) in Hrun;
      discriminate].
  rewrite (updateResults_ok j from m st log Hm) in Hrun.
  injection Hrun as <- <-.
  assert (He : truthy (normal_emoji j m) = true).
  { unfold normal_emoji. apply or_else_default_truthy. reflexivity. }
  split.
  - eexists. split; [reflexivity|]. apply or_else_default_truthy. reflexivity.
  - exists (new_row j from m (clock (List.length log))).
    split; [reflexivity|]. split; [|split; [exact He|split]].
    + cbn [new_row HistoryRow.mood]. destruct m; cbn; discriminate.
    + intros _. split; [reflexivity|].
      unfold shown_emoji. cbn [emoji updated mood].
      unfold or_else at 2. rewrite He. unfold or_else at 1. rewrite He.
      reflexivity.
    + cbn [updated mood]. intros ->. split; [reflexivity|].
      split; reflexivity.
Qed.



(** *** The chart, further *)

(** X19: [clamp01] by cases: a falsy number ([NaN], [0], [-0]) and a
    negative one give [0], a number above 1 gives 1, and a number of
    (0, 1] is left as it is; so clamping twice changes nothing more. *)
Theorem clamp01_cases (n : number) :
  (Boolean_number n = false -> clamp01 n = num 0) /\
  (ltb n (num 0) = true -> clamp01 n = num 0) /\
  (ltb (num 0) n = true -> leb n (num 1) = true -> clamp01 n = n) /\
  (ltb (num 1) n = true -> clamp01 n = num 1) /\
  clamp01 (clamp01 n) = clamp01 n.
Proof.
  split; [apply clamp01_falsy|]. split; [apply clamp01_negative|].
  split; [apply clamp01_inside|]. split; [apply clamp01_above|].
  destruct (Boolean_number n) eqn:Hb;
    [|rewrite (clamp01_falsy n Hb); reflexivity].
  destruct (ltb n (num 0)) eqn:Hneg;
    [rewrite (clamp01_negative n Hneg); reflexivity|].
  destruct (ltb (num 1) n) eqn:Habove;
    [rewrite (clamp01_above n Habove); reflexivity|].
  assert (Hnan : is_nan n = false) by (destruct n; try discriminate; reflexivity).
  assert (H : clamp01 n = n).
  { apply clamp01_inside.
    - destruct n as [s|s| |s m e]; try discriminate.
      + destruct s; [discriminate|reflexivity].
      + destruct s; [discriminate|reflexivity].
    - apply leb_total; [reflexivity|exact Hnan|exact Habove]. }
  rewrite H. exact H.
Qed.

Lemma leb_not_ltb (x y : number) : leb y x = true -> ltb x y = false.
Proof.
  unfold leb, ltb, SFleb, SFltb. rewrite (compare_flip y x).
  destruct (SFcompare y x) as [[]|]; cbn; congruence.
Qed.

Lemma insert_by_front (x : string * number) (l : list (string * number)) :
  proper (snd x) = true -> proper_entries l ->
  HdRel above x l -> insert_by by_probability x l = x :: l.
Proof.
  intros Hx Hl Hhd. destruct l as [|y l]; [reflexivity|].
  cbn [insert_by]. unfold by_probability.
  inversion Hhd as [|? ? Hab]; subst. inversion Hl as [|? ? Hy _]; subst.
  rewrite (sub_positive (snd x) (snd y) Hx Hy).
  rewrite (leb_not_ltb _ _ Hab). reflexivity.
Qed.

(** X20: the sort of the chart is stable.  A map of proper numbers that
    is already in descending order comes back as it is, entries of equal
    probability staying in the order of the response, and the chart shows
    its first six entries; so sorting a sorted map again changes nothing,
    and the chart has as many bars as the map has entries, six at most. *)
Theorem chart_entries_sorted (p : Probs) :
  proper_entries p ->
  (descending p -> sort_by by_probability p = p /\
                   MiniChart (Some p) = Some (map bar_of (firstn 6 p))) /\
  sort_by by_probability (sort_by by_probability p) = sort_by by_probability p /\
  (forall bars, MiniChart (Some p) = Some bars ->
                List.length bars = Nat.min 6 (List.length p)).
Proof.
  intros Hp.
  assert (Hfix : forall q, proper_entries q -> descending q ->
                           sort_by by_probability q = q).
  { induction q as [|x q IH]; intros Hq Hd; [reflexivity|].
    cbn [sort_by fold_right]. fold (sort_by by_probability q).
    inversion Hq as [|? ? Hx Hq']; subst.
    apply StronglySorted_inv in Hd. destruct Hd as [Hd Hall].
    rewrite (IH Hq' Hd). apply insert_by_front; [exact Hx|exact Hq'|].
    destruct q as [|y q]; constructor.
    inversion Hall; subst. assumption. }
  split; [|split].
  - intros Hd. split; [exact (Hfix p Hp Hd)|].
    unfold MiniChart, chart_entries. rewrite (Hfix p Hp Hd). reflexivity.
  - apply Hfix.
    + unfold proper_entries. apply Forall_forall. intros kv Hin.
      apply (Permutation_in _ (sort_by_perm by_probability p)) in Hin.
      unfold proper_entries in Hp. rewrite Forall_forall in Hp.
      exact (Hp kv Hin).
    + apply sort_by_descending. exact Hp.
  - intros bars H.
    assert (Hbars : bars = map bar_of (firstn 6 (sort_by by_probability p)))
      by (unfold MiniChart, chart_entries in H; congruence).
    rewrite Hbars, length_map, length_firstn.
    rewrite (Permutation_length (sort_by_perm by_probability p)).
    reflexivity.
Qed.

(** *** The playlist, further *)

Lemma bad_title_throws (m : Mode) (it : value) :
  title_of it = None ->
  some_r (fun k =>
            (it_title <- get it "title" ;;
             lowered <- call_toLowerCase toLowerCase
                          (or_else it_title (VStr "")) ;;
             Ok (includes lowered k))%js) (keywords m)
  = Throw TypeError.
Proof.
  unfold title_of. intros H.
  assert (Hk : exists k ks, keywords m = k :: ks)
    by (destruct m; eexists _, _; reflexivity).
  destruct Hk as [k [ks ->]]. cbn [some_r].
  destruct (get it "title") as [v|e] eqn:Hget.
  - cbn [bind]. destruct (or_else v (VStr "")); try discriminate;
      reflexivity.
  - destruct it; try discriminate; cbn in Hget; injection Hget as <-;
      reflexivity.
Qed.

Lemma filter_r_throws {A : Type} (p : A -> result bool) (l : list A) (e : exn) :
  (forall x r, In x l -> p x = Throw r -> r = e) ->
  (exists x, In x l /\ p x = Throw e) ->
  filter_r p l = Throw e.
Proof.
  induction l as [|x l IH]; intros Hall [y [Hin Hy]]; [destruct Hin|].
  cbn [filter_r]. destruct (p x) as [b|r] eqn:Hx.
  - cbn [bind]. destruct Hin as [->|Hin]; [congruence|].
    rewrite IH; [reflexivity| |exists y; split; assumption].
    intros z r Hz. apply Hall. right. exact Hz.
  - cbn [bind]. rewrite (Hall x r (or_introl eq_refl) Hx). reflexivity.
Qed.

Lemma filter_idempotent {A : Type} (f : A -> bool) (l : list A) :
  filter f (filter f l) = filter f l.
Proof.
  induction l as [|x l IH]; [reflexivity|].
  cbn [filter]. destruct (f x) eqn:Hx; [|exact IH].
  cbn [filter]. rewrite Hx, IH. reflexivity.
Qed.

Lemma empty_title_no_match (m : Mode) :
  m <> all -> existsb (includes (toLowerCase EmptyString)) (keywords m) = false.
Proof.
  intros Hm. rewrite (toLowerCase_ascii EmptyString eq_refl).
  destruct m; [contradiction| | |]; reflexivity.
Qed.

(** X21: the playlist filter on what the service may send.  With a
    category other than "all" it throws a [TypeError] as soon as one item
    is [null] or [undefined] or has a truthy title that is not a string.
    When it returns, it has kept a part of the list (the items that
    match, in their order), filtering the result again changes nothing,
    and every item kept has a title that is not empty. *)
Theorem filteredList_untyped_items (m : Mode) (items : list value) :
  m <> all ->
  ((exists it, In it items /\ title_of it = None) ->
   filteredList m items = Throw TypeError) /\
  (forall kept,
      filteredList m items = Ok kept ->
      kept = filter (matches m) items /\
      filteredList m kept = Ok kept /\
      forall it, In it kept ->
                 In it items /\
                 exists t, title_of it = Some t /\ t <> EmptyString).
Proof.
  intros Hm.
  assert (Hthrows : (exists it, In it items /\ title_of it = None) ->
                    filteredList m items = Throw TypeError).
  { intros [it [Hin Hbad]].
    assert (H : filter_r (fun it =>
                some_r (fun k =>
                  (it_title <- get it "title" ;;
                   lowered <- call_toLowerCase toLowerCase
                                (or_else it_title (VStr "")) ;;
                   Ok (includes lowered k))%js) (keywords m)) items
                = Throw TypeError).
    { apply filter_r_throws.
      - intros x r _ Hx. destruct (title_of x) as [t|] eqn:Ht.
        + rewrite (some_r_pure _ (includes (toLowerCase t))
                     (keywords m)) in Hx; [discriminate|].
          intros k _. unfold title_of in Ht.
          destruct (get x "title") as [v|e]; [|discriminate]. cbn [bind].
          destruct (or_else v (VStr "")); try discriminate.
          injection Ht as ->. reflexivity.
        + rewrite (bad_title_throws m x Ht) in Hx. congruence.
      - exists it. split; [exact Hin|]. apply bad_title_throws. exact Hbad. }
    destruct m; [contradiction| | |]; exact H. }
  split; [exact Hthrows|].
  intros kept Hkept.
  assert (Htyped : forall it, In it items -> exists t, title_of it = Some t).
  { intros it Hin. destruct (title_of it) as [t|] eqn:Ht;
      [exists t; reflexivity|].
    rewrite Hthrows in Hkept; [discriminate|]. exists it. split; assumption. }
  rewrite (filteredList_typed m items Hm Htyped) in Hkept.
  injection Hkept as <-. split; [reflexivity|]. split.
  - rewrite filteredList_typed; [rewrite filter_idempotent; reflexivity
                                |exact Hm|].
    intros it Hin. apply filter_In in Hin. apply Htyped. apply Hin.
  - intros it Hin. apply filter_In in Hin. destruct Hin as [Hin Hmatch].
    split; [exact Hin|]. destruct (Htyped it Hin) as [t Ht]. exists t.
    split; [exact Ht|]. intros ->. unfold matches in Hmatch.
    rewrite Ht, (empty_title_no_match m Hm) in Hmatch. discriminate.
Qed.

(** *** Embeds, further *)

Lemma split_piece_clean (s piece : string) (sep : ascii) :
  In piece (split s sep) -> occurs sep piece = false.
Proof.
  revert piece. induction s as [|c s IH]; cbn [split]; intros piece Hin.
  - destruct Hin as [<-|[]]. reflexivity.
  - destruct (Ascii.eqb c sep) eqn:Hc.
    + destruct Hin as [<-|Hin]; [reflexivity|]. apply IH. exact Hin.
    + destruct (split s sep) as [|p ps] eqn:E.
      * destruct Hin as [<-|[]]. cbn [occurs]. rewrite Hc. reflexivity.
      * destruct Hin as [<-|Hin].
        -- cbn [occurs]. rewrite Hc. apply IH. left. reflexivity.
        -- apply IH. right. exact Hin.
Qed.

(** X22: what [toSpotifyEmbed] returns, read backwards.  It returns
    [null] exactly when the URL does not parse, or its host name does not
    contain [open.spotify.com], or its path has fewer than two segments.
    An embed it returns is made of the first two segments of the path of
    such a URL, whatever follows them; both are non-empty and contain no
    slash, and the id contains no question mark. *)
Theorem toSpotifyEmbed_shape (url : string) :
  (toSpotifyEmbed url = Ok None <->
   forall u, new_URL url = Ok u ->
             includes (hostname u) "open.spotify.com" = false \/
             (List.length (segments u) < 2)%nat) /\
  (forall embed,
      toSpotifyEmbed url = Ok (Some embed) ->
      exists u type id rest,
        new_URL url = Ok u /\
        includes (hostname u) "open.spotify.com" = true /\
        segments u = type :: id :: rest /\
        embed = "https://open.spotify.com/embed/" ++ type ++ "/" ++ id /\
        type <> EmptyString /\ id <> EmptyString /\
        occurs "/" type = false /\ occurs "/" id = false /\
        occurs "?" id = false).
Proof.
  destruct (new_URL url) as [u|e] eqn:Hu.
  - rewrite (toSpotifyEmbed_unfold url u Hu). split.
    + split.
      * intros H u' Hu'. injection Hu' as <-.
        destruct (includes (hostname u) "open.spotify.com");
          [|left; reflexivity].
        right. destruct (segments u) as [|t [|i r]]; cbn; try lia.
        discriminate.
      * intros H. destruct (H u eq_refl) as [->|Hlen]; [reflexivity|].
        destruct (includes (hostname u) "open.spotify.com"); [|reflexivity].
        destruct (segments u) as [|t [|i r]]; try reflexivity.
        cbn in Hlen. lia.
    + intros embed H.
      destruct (includes (hostname u) "open.spotify.com") eqn:Hhost;
        [|discriminate].
      destruct (segments u) as [|type [|id rest]] eqn:Hseg;
        try discriminate.
      assert (Hin_type : In type (segments u))
        by (rewrite Hseg; left; reflexivity).
      assert (Hin_id : In id (segments u))
        by (rewrite Hseg; right; left; reflexivity).
      pose proof (segment_no_query url u id Hu Hin_id) as Hquery.
      rewrite (split_absent id "?" Hquery) in H. cbn [nth] in H.
      injection H as <-.
      unfold segments in Hin_type, Hin_id.
      apply filter_In in Hin_type. apply filter_In in Hin_id.
      destruct Hin_type as [Htype Htype_ne]. destruct Hin_id as [Hid Hid_ne].
      exists u, type, id, rest. repeat split; try assumption.
      * intros ->. discriminate.
      * intros ->. discriminate.
      * apply (split_piece_clean _ _ _ Htype).
      * apply (split_piece_clean _ _ _ Hid).
  - assert (Hnull : toSpotifyEmbed url = Ok None).
    { unfold toSpotifyEmbed. rewrite Hu. reflexivity. }
    rewrite Hnull. split.
    + split; [intros _ u Hu'; discriminate|reflexivity].
    + intros embed H. discriminate.
Qed.

(** *** The stored history, further *)

(** X23: the initialiser of the history never throws, and a stored text
    that parses is taken as the history whatever it holds: no test that
    it is a list, or a list of entries.  The empty text counts as
    nothing stored. *)
Theorem initial_history_trusts (localStorage : string -> option string) :
  (exists v, initial_history localStorage = Ok v) /\
  (forall stored v,
      localStorage "mood_history" = Some stored ->
      stored <> EmptyString ->
      JSON_parse stored = Ok v ->
      initial_history localStorage = Ok v) /\
  (localStorage "mood_history" = Some EmptyString ->
   initial_history localStorage = Ok (VArr [])).
Proof.
  unfold initial_history. split; [|split].
  - unfold try_catch.
    match goal with
    | |- context [JSON_parse ?text] => destruct (JSON_parse text) as [v|e]
    end; eexists; reflexivity.
  - intros stored v -> Hne Hparse. destruct stored; [contradiction|].
    cbn [Boolean_string]. rewrite Hparse. reflexivity.
  - intros ->. cbn [Boolean_string]. rewrite JSON_parse_empty_array.
    reflexivity.
Qed.

(** *** The tables *)

Lemma assoc_In {A : Type} (key : string) (l : list (string * A)) (v : A) :
  assoc key l = Some v -> In key (map fst l) /\ In v (map snd l).
Proof.
  induction l as [|[k x] l IH]; cbn [assoc map fst snd In]; [discriminate|].
  destruct (String.eqb k key) eqn:Hk.
  - intros H. injection H as <-. apply String.eqb_eq in Hk.
    split; left; [exact Hk|reflexivity].
  - intros H. destruct (IH H) as [H1 H2]. split; right; assumption.
Qed.

Lemma assoc_None {A : Type} (key : string) (l : list (string * A)) :
  assoc key l = None -> ~ In key (map fst l).
Proof.
  induction l as [|[k x] l IH]; cbn [assoc map fst In]; [intros _ []|].
  destruct (String.eqb k key) eqn:Hk; [discriminate|].
  intros H [Heq|Hin]; [|exact (IH H Hin)].
  apply String.eqb_neq in Hk. exact (Hk Heq).
Qed.

(** X24: the background the effect sets is never [undefined].  It is the
    gradient of the mood when the table has one, and the gradient of
    "neutral" for any other mood that names no inherited property (so
    for the empty mood of the start).  For a mood that names an
    inherited property of the table, such as "constructor", it is that
    inherited member, which is no gradient: the background is a gradient
    of the table exactly for the other moods.  Every mood with a
    gradient has a glyph; every mood with a glyph has a colour of its
    own, except "neutral", which has the default colour, and a gradient,
    except "positive". *)
Theorem background_gradient (mood : string) :
  truthy (background mood) = true /\
  (forall g, assoc mood MOOD_GRADIENT = Some g -> background mood = g) /\
  (assoc mood MOOD_GRADIENT = None -> inherited mood = VUndefined ->
   background mood
   = VStr "linear-gradient(-45deg,#0b0b12,#121225,#171733,#10101a)") /\
  (inherited mood <> VUndefined -> background mood = VBuiltin mood) /\
  (In (background mood) (map snd MOOD_GRADIENT) <->
   inherited mood = VUndefined) /\
  (In mood (map fst MOOD_GRADIENT) -> In mood (map fst EMOJI)) /\
  (In mood (map fst EMOJI) ->
   (mood <> "neutral" -> moodColor mood <> moodColor EmptyString) /\
   (mood <> "positive" -> In mood (map fst MOOD_GRADIENT))).
Proof.
  assert (Htruthy : forall k v, assoc k MOOD_GRADIENT = Some v ->
                                truthy v = true).
  { intros k v. unfold MOOD_GRADIENT. cbn [assoc].
    repeat (destruct (String.eqb _ k);
            [intros H; injection H as <-; reflexivity|]).
    discriminate. }
  assert (Hown : forall g, assoc mood MOOD_GRADIENT = Some g ->
                           background mood = g).
  { intros g Hg. unfold background, lookup. rewrite Hg.
    unfold or_else. rewrite (Htruthy mood g Hg). reflexivity. }
  assert (Hneutral : assoc mood MOOD_GRADIENT = None ->
                     inherited mood = VUndefined ->
                     background mood
                     = VStr "linear-gradient(-45deg,#0b0b12,#121225,#171733,#10101a)").
  { intros Hnone Hinh. unfold background, lookup at 1.
    rewrite Hnone, Hinh. reflexivity. }
  assert (Hkeys : In mood (map fst MOOD_GRADIENT) ->
                  inherited mood = VUndefined).
  { cbn [map fst MOOD_GRADIENT In]. intros H.
    repeat (destruct H as [<-|H]; [reflexivity|]). destruct H. }
  assert (Hinherited : inherited mood <> VUndefined ->
                       background mood = VBuiltin mood).
  { intros Hinh. unfold background, lookup at 1.
    destruct (assoc mood MOOD_GRADIENT) as [g|] eqn:Hg.
    - destruct Hinh. apply Hkeys. apply (assoc_In mood _ g Hg).
    - unfold inherited in *.
      destruct (existsb (String.eqb mood) Object_prototype);
        [reflexivity|destruct Hinh; reflexivity]. }
  split; [|split; [|split; [|split; [|split; [|split]]]]].
  - unfold background. apply or_else_default_truthy. reflexivity.
  - exact Hown.
  - exact Hneutral.
  - exact Hinherited.
  - split.
    + intros Hin. destruct (inherited mood) eqn:Hinh; try reflexivity;
        rewrite Hinherited in Hin by discriminate;
        cbn [map snd MOOD_GRADIENT In] in Hin;
        repeat (destruct Hin as [Hin|Hin]; [discriminate Hin|]);
        destruct Hin.
    + intros Hinh. destruct (assoc mood MOOD_GRADIENT) as [g|] eqn:Hg.
      * rewrite (Hown g eq_refl). apply (assoc_In mood _ g Hg).
      * rewrite (Hneutral eq_refl Hinh).
        cbn [map snd MOOD_GRADIENT In].
        repeat (first [left; reflexivity | right]).
  - cbn [map fst MOOD_GRADIENT EMOJI In].
    intros H.
    repeat (destruct H as [<-|H];
            [solve [repeat (first [left; reflexivity | right])]|]).
    destruct H.
  - cbn [map fst MOOD_GRADIENT EMOJI In].
    intros H.
    repeat (destruct H as [<-|H];
            [split;
             [intros Hne;
              first [destruct (Hne eq_refl)
                    |intros E; vm_compute in E; discriminate E]
             |intros Hne;
              first [destruct (Hne eq_refl)
                    |solve [repeat (first [left; reflexivity | right])]]]|]).
    destruct H.
Qed.

(** *** The camera tab *)

Variable dev : Devices.

(** The JPEGs of the frames encoded at the given moments, the failed
    encodings left out. *)
Lemma capture_run (n w h : nat) :
  forall frames media,
    capture dev n w h frames media
    = ((frames ++ flat_map (fun k => match toBlob dev k with
                                     | Some blob => [blob]
                                     | None => []
                                     end)
                           (seq (S (List.length media)) n))%list,
       (media ++ repeat (Drew w h) n)%list).
Proof.
  induction n as [|n IH]; intros frames media.
  - cbn. rewrite !app_nil_r. reflexivity.
  - cbn [capture]. rewrite IH. rewrite length_app, Nat.add_1_r.
    cbn [List.length seq flat_map repeat].
    destruct (toBlob dev (S (List.length media)));
      rewrite <- ?app_assoc; reflexivity.
Qed.

Lemma live_draws (media : list MediaEvent) (w h n : nat) :
  live (media ++ repeat (Drew w h) n) = live media.
Proof.
  rewrite live_app. induction n as [|n IH]; [reflexivity|exact IH].
Qed.

Lemma flat_map_length_le {A B : Type} (f : A -> list B) (l : list A) :
  (forall a, List.length (f a) <= 1)%nat ->
  (List.length (flat_map f l) <= List.length l)%nat.
Proof.
  intros Hf. induction l as [|a l IH]; [reflexivity|].
  cbn [flat_map]. rewrite length_app. cbn [List.length].
  specialize (Hf a). lia.
Qed.

(** X12: "Capture 3 Frames & Analyze" does nothing without the video
    element or without a 2d context.  Otherwise it draws the video three
    times, at the size of the video (640 by 480 where it has none, never
    empty), keeps the JPEGs that were encoded, in order, at most three,
    and hands them to [analyzeImagesBlobs] with origin [camera]; it does
    so even when no frame could be encoded.  It touches neither refs nor
    tracks. *)
Theorem captureAndAnalyze_frames (refs : Refs) (media : list MediaEvent)
        (st : AppState) (log : list Event) :
  (videoRef refs = None \/ getContext dev (List.length media) = false ->
   captureAndAnalyze dev refs media st log = (Ok (refs, media), st, log))
  /\ (forall video,
      videoRef refs = Some video ->
      getContext dev (List.length media) = true ->
      let w := or_size (videoWidth video) 640 in
      let h := or_size (videoHeight video) 480 in
      let jpeg k := match toBlob dev k with
                    | Some blob => [blob]
                    | None => []
                    end in
      let frames := flat_map jpeg (seq (S (List.length media)) 3) in
      let media' := (media ++ [Drew w h; Drew w h; Drew w h])%list in
      let run := analyzeImagesBlobs frames Tab.camera st log in
      captureAndAnalyze dev refs media st log
      = (Ok (refs, media'), snd (fst run), snd run) /\
      (0 < w)%nat /\ (0 < h)%nat /\ (List.length frames <= 3)%nat /\
      live media' = live media /\
      hd_error (skipn (List.length (requests log)) (requests (snd run)))
      = Some (images_request frames)).
Proof.
  split.
  - unfold captureAndAnalyze. intros [->| H]; [reflexivity|].
    destruct (videoRef refs); [|reflexivity]. rewrite H. reflexivity.
  - intros video Hvideo Hctx w h jpeg frames media' run.
    split; [|split; [|split; [|split; [|split]]]].
    + subst w h jpeg frames media' run.
      unfold captureAndAnalyze. rewrite Hvideo, Hctx, capture_run.
      cbn [app]. unfold bindH, ret.
      match goal with
      | |- context [analyzeImagesBlobs ?frames Tab.camera st log] =>
          destruct (analyzeImagesBlobs_cells frames Tab.camera st log)
            as [Hok _];
          destruct (analyzeImagesBlobs frames Tab.camera st log)
            as [[r st'] log']
      end.
      cbn [fst snd] in *. rewrite Hok. reflexivity.
    + apply or_size_positive. lia.
    + apply or_size_positive. lia.
    + unfold frames.
      apply (Nat.le_trans _ (List.length (seq (S (List.length media)) 3)));
        [|rewrite length_seq; lia].
      apply flat_map_length_le. intros k. unfold jpeg.
      destruct (toBlob dev k); cbn; lia.
    + apply (live_draws media w h 3).
    + destruct (analyzeImagesBlobs_requests frames Tab.camera st log)
        as [H|[blob0 [rest [_ H]]]]; fold run in H; rewrite H;
        rewrite skipn_app, Nat.sub_diag, skipn_all; reflexivity.
Qed.

(** App's [startCamera], in full. *)
Lemma startCamera_run (refs : Refs) (media : list MediaEvent)
      (st : AppState) (log : list Event) :
  startCamera dev refs media st log =
    match getUserMedia dev (List.length media) with
    | RejectedWith e =>
        (Ok (refs, (media ++ [Refused])%list),
         setToast (Some (camera_error e)) st, log)
    | Fulfilled s =>
        match videoRef refs with
        | Some video =>
            let refs' := {| videoRef := Some (set_srcObject (Some s) video);
                            streamRef := Some s |} in
            let media' := (media ++ [Acquired s; Played])%list in
            match play dev (S (List.length media)) with
            | RejectedWith e =>
                (Ok (refs', media'), setToast (Some (camera_error e)) st, log)
            | Fulfilled _ => (Ok (refs', media'), setCameraOn true st, log)
            end
        | None =>
            (Ok ({| videoRef := None; streamRef := Some s |},
                 (media ++ [Acquired s])%list),
             setCameraOn true st, log)
        end
    end.
Proof.
  unfold startCamera.
  destruct (getUserMedia dev (List.length media)) as [s|e]; [|reflexivity].
  cbn [videoRef streamRef].
  destruct (videoRef refs) as [video|] eqn:Hvideo; [|reflexivity].
  rewrite length_app, Nat.add_1_r. cbn [List.length].
  destruct (play dev (S (List.length media))) as [[]|e];
    rewrite <- app_assoc; reflexivity.
Qed.

(** X13: "Start Camera" of [App] never throws, sends nothing and leaves
    the results alone.  Either it turns [cameraOn] on, holding the stream
    it was given, or it leaves [cameraOn] as it was and shows a toast
    "Camera error: " followed by the message of the rejection, and by
    "permission denied" when the rejection has no message. *)
Theorem startCamera_toast (refs : Refs) (media : list MediaEvent)
        (st : AppState) (log : list Event) :
  let run := startCamera dev refs media st log in
  let st' := snd (fst run) in
  snd run = log /\ result_cells st' = result_cells st /\
  (exists refs' media',
      fst (fst run) = Ok (refs', media') /\
      ((cameraOn st' = true /\ toast st' = toast st /\
        exists s, getUserMedia dev (List.length media) = Fulfilled s /\
                  streamRef refs' = Some s)
       \/ (cameraOn st' = cameraOn st /\
           exists e, toast st' = Some (camera_error e) /\
                     (getUserMedia dev (List.length media) = RejectedWith e \/
                      play dev (S (List.length media)) = RejectedWith e))))
  /\ (forall e m, message e = VStr m -> m <> EmptyString ->
                  camera_error e = "Camera error: " ++ m)
  /\ (forall e, truthy (message e) = false ->
                camera_error e = "Camera error: permission denied").
Proof.
  cbv zeta. rewrite startCamera_run.
  split; [|split; [|split; [|split]]].
  - destruct (getUserMedia dev _) as [s|e]; [|reflexivity].
    destruct (videoRef refs); [|reflexivity]. cbv zeta.
    destruct (play dev _) as [[]|e]; reflexivity.
  - destruct (getUserMedia dev _) as [s|e]; [|reflexivity].
    destruct (videoRef refs); [|reflexivity]. cbv zeta.
    destruct (play dev _) as [[]|e]; reflexivity.
  - destruct (getUserMedia dev (List.length media)) as [s|e] eqn:Hget.
    + destruct (videoRef refs) as [video|].
      * cbv zeta.
        destruct (play dev (S (List.length media))) as [[]|e] eqn:Hplay;
          eexists _, _; (split; [reflexivity|]).
        -- left. repeat split. exists s. split; reflexivity.
        -- right. split; [reflexivity|]. exists e. split; [reflexivity|].
           right. reflexivity.
      * eexists _, _. split; [reflexivity|]. left. repeat split.
        exists s. split; reflexivity.
    + eexists _, _. split; [reflexivity|]. right. split; [reflexivity|].
      exists e. split; [reflexivity|]. left. reflexivity.
  - intros e m Hm Hne. unfold camera_error, or_else. rewrite Hm.
    destruct m as [|a m]; [contradiction|]. cbn [truthy Boolean_string].
    rewrite ToString_string. reflexivity.
  - intros e Hm. unfold camera_error, or_else. rewrite Hm.
    rewrite ToString_string. reflexivity.
Qed.

Lemma camera_step_in_step (a : CameraAction) (refs : Refs)
      (media : list MediaEvent) (st : AppState) (log : list Event) :
  (forall n e, play dev n <> RejectedWith e) ->
  camera_offered st a = true ->
  camera_in_step st refs media ->
  loading st = false ->
  exists refs' media' st' log',
    camera_step dev a refs media st log = (Ok (refs', media'), st', log') /\
    camera_in_step st' refs' media' /\ loading st' = false.
Proof.
  intros Hplay Hoffered Hin Hloading. unfold camera_in_step in *.
  destruct a; cbn [camera_step camera_offered] in *.
  - (* Start Camera *)
    apply negb_true_iff in Hoffered. rewrite Hoffered in Hin.
    destruct Hin as [Hstream Hlive]. rewrite startCamera_run.
    destruct (getUserMedia dev (List.length media)) as [s|e].
    + destruct (videoRef refs) as [video|].
      * cbv zeta.
        destruct (play dev _) as [[]|e] eqn:E; [|destruct (Hplay _ _ E)].
        eexists _, _, _, _. split; [reflexivity|]. split; [|exact Hloading].
        cbn [setCameraOn cameraOn streamRef]. exists s.
        split; [reflexivity|]. rewrite live_app, Hlive. reflexivity.
      * eexists _, _, _, _. split; [reflexivity|]. split; [|exact Hloading].
        cbn [setCameraOn cameraOn streamRef]. exists s.
        split; [reflexivity|]. rewrite live_app, Hlive. reflexivity.
    + eexists _, _, _, _. split; [reflexivity|]. split; [|exact Hloading].
      cbn [setToast cameraOn]. rewrite Hoffered.
      split; [exact Hstream|]. rewrite live_app. exact Hlive.
  - (* Capture 3 Frames & Analyze *)
    unfold captureAndAnalyze.
    destruct (videoRef refs) as [video|];
      [|eexists _, _, _, _; split; [reflexivity|]; split; assumption].
    destruct (getContext dev _);
      [|eexists _, _, _, _; split; [reflexivity|]; split; assumption].
    rewrite capture_run. unfold bindH, ret.
    match goal with
    | |- context [analyzeImagesBlobs ?frames Tab.camera st log] =>
        destruct (analyzeImagesBlobs_cells frames Tab.camera st log)
          as [Hok [Hl Hc]];
        destruct (analyzeImagesBlobs frames Tab.camera st log)
          as [[r st'] log']
    end.
    cbn [fst snd] in *. rewrite Hok.
    eexists _, _, _, _. split; [reflexivity|]. split; [|exact Hl].
    rewrite Hc, live_draws. exact Hin.
  - (* Stop *)
    rewrite Hoffered in Hin. destruct Hin as [s [Hs Hl]].
    unfold stopCamera, bindH, modify, ret. rewrite Hs.
    eexists _, _, _, _. split; [reflexivity|]. split; [|exact Hloading].
    cbn [setCameraOn cameraOn streamRef]. split; [reflexivity|].
    rewrite live_app. apply stop_all. intros tr Htr. rewrite <- Hl.
    exact Htr.
Qed.

(** X14: in a sequential session on the camera tab, where the user lets
    each handler come to its end before the next click, and as long as
    [play()] does not reject: no handler throws, [loading] is false
    again after each of them, and [App] holds the camera exactly while
    [cameraOn] says so: with [cameraOn] the live tracks are those of the
    stream in [streamRef], without it no stream is held and no track is
    live. *)
Theorem camera_session_held (actions : list CameraAction) :
  (forall n e, play dev n <> RejectedWith e) ->
  forall refs media st log outcome,
    camera_in_step st refs media ->
    loading st = false ->
    camera_session dev actions refs media st log = Some outcome ->
    exists refs' media',
      fst (fst outcome) = Ok (refs', media') /\
      camera_in_step (snd (fst outcome)) refs' media' /\
      loading (snd (fst outcome)) = false.
Proof.
  intros Hplay.
  induction actions as [|a actions IH];
    intros refs media st log outcome Hin Hloading.
  - cbn. intros H. injection H as <-. exists refs, media. repeat split;
      assumption.
  - cbn [camera_session].
    destruct (camera_offered st a) eqn:Hoffered; [|discriminate].
    destruct (camera_step_in_step a refs media st log Hplay Hoffered Hin
                Hloading) as [refs1 [media1 [st1 [log1 [-> [Hin1 Hl1]]]]]].
    apply IH; assumption.
Qed.

End App.

(** ** Properties of [CameraBox] *)

Section CameraBoxFacts.

Import CameraBox.

Variable dev : Devices.

Lemma failed_shown (e : value) (c : t) : error_shown (failed e c) = true.
Proof.
  unfold error_shown, failed, setErr, or_else. cbn [err].
  destruct (truthy (message e)) eqn:H; [exact H|reflexivity].
Qed.

(** X6: [stopCamera] lets go of the camera: it stops every track of the
    stream it holds, clears both refs and [running], and keeps [err].
    When the live tracks are those of the held stream none is live
    afterwards; and a second [stopCamera] does nothing more. *)
Theorem stopCamera_releases (c : t) (log : list MediaEvent) :
  let c' := fst (stopCamera c log) in
  let log' := snd (stopCamera c log) in
  streamRef c' = None /\ running c' = false /\ err c' = err c /\
  (forall video, videoRef c' = Some video -> srcObject video = None) /\
  (forall s, streamRef c = Some s -> log' = (log ++ map Stopped s)%list) /\
  ((forall tr, In tr (live log) ->
               exists s, streamRef c = Some s /\ In tr s) ->
   live log' = []) /\
  stopCamera c' log' = (c', log').
Proof.
  cbv zeta. unfold stopCamera. cbn [fst snd].
  destruct c as [video stream run e]. cbn [streamRef videoRef set_streamRef].
  repeat split.
  - destruct video; reflexivity.
  - destruct video; reflexivity.
  - destruct video as [v|]; cbn; intros v'; [|discriminate].
    intros H. injection H as <-. reflexivity.
  - intros s ->. reflexivity.
  - intros Hlive. destruct stream as [s|].
    + rewrite live_app. apply stop_all. intros tr Htr.
      destruct (Hlive tr Htr) as [s' [Hs Hin]]. injection Hs as <-. exact Hin.
    + destruct (live log) as [|tr l] eqn:El; [reflexivity|].
      destruct (Hlive tr (or_introl eq_refl)) as [s [Hs _]]. discriminate.
  - destruct video as [[src w h]|]; reflexivity.
Qed.

(** X7: pressed while the camera is off, "Start Camera" ends in one of
    two ways: the component is [running], without an error line, holding
    the stream it was given; or it is still not [running] and the error
    line is shown, with the message of the rejection or, when that has
    none, the default text. *)
Theorem startCamera_ends (c : t) (log : list MediaEvent) :
  running c = false ->
  let c' := fst (startCamera dev c log) in
  error_shown c' = negb (running c') /\
  (running c' = true ->
   exists s, getUserMedia dev (List.length log) = Fulfilled s /\
             streamRef c' = Some s /\ err c' = VNull /\
             forall video, videoRef c = Some video ->
                           videoRef c' = Some (set_srcObject (Some s) video)) /\
  (running c' = false ->
   exists e, err c' = or_else (message e)
                        (VStr "Camera permission denied or unavailable") /\
             (getUserMedia dev (List.length log) = RejectedWith e \/
              play dev (S (List.length log)) = RejectedWith e)).
Proof.
  intros Hoff. cbv zeta. unfold startCamera.
  destruct (getUserMedia dev (List.length log)) as [s|e] eqn:Hget.
  - cbn [set_streamRef setErr videoRef streamRef running err].
    destruct (videoRef c) as [video|] eqn:Hvideo.
    + rewrite length_app, Nat.add_1_r. cbn [List.length].
      destruct (play dev (S (List.length log))) as [[]|e] eqn:Hplay;
        cbn [fst].
      * split; [reflexivity|]. split; [|discriminate].
        intros _. exists s. repeat split. intros v H. injection H as <-.
        reflexivity.
      * rewrite failed_shown. cbn. rewrite Hoff.
        split; [reflexivity|]. split; [discriminate|].
        intros _. exists e. split; [reflexivity|]. right. reflexivity.
    + cbn [fst]. split; [reflexivity|]. split; [|discriminate].
      intros _. exists s. repeat split. intros v H. discriminate.
  - cbn [fst]. rewrite failed_shown. cbn. rewrite Hoff.
    split; [reflexivity|]. split; [discriminate|].
    intros _. exists e. split; [reflexivity|]. left. reflexivity.
Qed.

(** X8: when [play()] rejects, the stream that [getUserMedia] gave is
    kept: it is in [streamRef] and on the [<video>], its tracks are live,
    yet the component is not [running] and shows the error. *)
Theorem startCamera_play_rejected (c : t) (log : list MediaEvent)
        (video : Video) (s : MediaStream) (e : value) :
  videoRef c = Some video ->
  getUserMedia dev (List.length log) = Fulfilled s ->
  play dev (S (List.length log)) = RejectedWith e ->
  let c' := fst (startCamera dev c log) in
  let log' := snd (startCamera dev c log) in
  running c' = running c /\ error_shown c' = true /\
  streamRef c' = Some s /\
  videoRef c' = Some (set_srcObject (Some s) video) /\
  log' = (log ++ [Acquired s; Played])%list /\
  live log' = (live log ++ s)%list.
Proof.
  intros Hvideo Hget Hplay. cbv zeta. unfold startCamera.
  rewrite Hget. cbn [set_streamRef setErr videoRef]. rewrite Hvideo.
  rewrite length_app, Nat.add_1_r. cbn [List.length]. rewrite Hplay.
  cbn [fst snd]. rewrite failed_shown. rewrite <- app_assoc.
  repeat split. rewrite live_app. reflexivity.
Qed.

(** X9: [captureFrame] draws at most one frame and hands at most one
    photo to [onPhoto], the JPEG of that frame; it draws nothing without
    the element or without a 2d context; the frame has the size of the
    video, 640 by 480 where the video has none, so never an empty one;
    the component and the tracks are left as they were. *)
Theorem captureFrame_photo (c : t) (log : list MediaEvent) :
  let c' := fst (captureFrame dev c log) in
  let log' := snd (captureFrame dev c log) in
  c' = c /\ live log' = live log /\
  ((log' = log) \/
   exists video w h,
     videoRef c = Some video /\ getContext dev (List.length log) = true /\
     w = or_size (videoWidth video) 640 /\
     h = or_size (videoHeight video) 480 /\
     (0 < w)%nat /\ (0 < h)%nat /\
     draws log' = (draws log ++ [(w, h)])%list /\
     photos log' = (photos log ++
                    match toBlob dev (S (List.length log)) with
                    | Some blob => [blob]
                    | None => []
                    end)%list).
Proof.
  cbv zeta. unfold captureFrame.
  destruct (videoRef c) as [video|] eqn:Hvideo;
    [|cbn [fst snd]; repeat split; left; reflexivity].
  destruct (getContext dev (List.length log)) eqn:Hctx;
    [|cbn [fst snd]; repeat split; left; reflexivity].
  rewrite length_app, Nat.add_1_r. cbn [List.length].
  destruct (toBlob dev (S (List.length log))) as [blob|];
    cbn [fst snd]; (split; [reflexivity|]).
  - split; [rewrite <- app_assoc, live_app; reflexivity|].
    right. exists video, (or_size (videoWidth video) 640),
      (or_size (videoHeight video) 480). repeat split;
      try (apply or_size_positive; lia).
    + rewrite !draws_app. cbn. rewrite app_nil_r. reflexivity.
    + rewrite !photos_app. cbn. rewrite app_nil_r. reflexivity.
  - split; [rewrite live_app; reflexivity|].
    right. exists video, (or_size (videoWidth video) 640),
      (or_size (videoHeight video) 480). repeat split;
      try (apply or_size_positive; lia).
    + rewrite !draws_app. reflexivity.
    + rewrite !photos_app. cbn. rewrite app_nil_r. reflexivity.
Qed.

Lemma stopCamera_off (c : t) (log : list MediaEvent) :
  running (fst (stopCamera c log)) = false.
Proof. reflexivity. Qed.

(** Stopping a camera that is held as the component says frees it. *)
Lemma stopCamera_in_step (c : t) (log : list MediaEvent) :
  in_step c log ->
  streamRef (fst (stopCamera c log)) = None /\
  live (snd (stopCamera c log)) = [].
Proof.
  unfold in_step, stopCamera. intros Hin. cbn [fst snd]. split.
  - destruct (videoRef (set_streamRef None c)); reflexivity.
  - destruct (running c).
    + destruct Hin as [s [-> Hl]]. rewrite live_app. apply stop_all.
      intros tr Htr. rewrite <- Hl. exact Htr.
    + destruct Hin as [-> Hl]. exact Hl.
Qed.

Lemma captureFrame_same (c : t) (log : list MediaEvent) :
  fst (captureFrame dev c log) = c.
Proof.
  unfold captureFrame. destruct (videoRef c); [|reflexivity].
  destruct (getContext dev _); [|reflexivity].
  destruct (toBlob dev _); reflexivity.
Qed.

Lemma captureFrame_live (c : t) (log : list MediaEvent) :
  live (snd (captureFrame dev c log)) = live log.
Proof.
  unfold captureFrame. destruct (videoRef c); [|reflexivity].
  destruct (getContext dev _); [|reflexivity].
  destruct (toBlob dev _); cbn [snd].
  - rewrite <- app_assoc, live_app. reflexivity.
  - rewrite live_app. reflexivity.
Qed.

Lemma step_in_step (a : Action) (c : t) (log : list MediaEvent) :
  (forall n e, play dev n <> RejectedWith e) ->
  offered c a = true ->
  in_step c log ->
  in_step (fst (step dev a c log)) (snd (step dev a c log)).
Proof.
  intros Hplay Hoffered Hin. unfold in_step in *.
  destruct a; cbn [step offered] in *.
  - (* Start *)
    apply negb_true_iff in Hoffered. rewrite Hoffered in Hin.
    destruct Hin as [Hstream Hlive]. unfold startCamera.
    destruct (getUserMedia dev (List.length log)) as [s|e].
    + cbn [set_streamRef setErr videoRef].
      destruct (videoRef c) as [video|].
      * destruct (play dev _) as [[]|e] eqn:E; [|destruct (Hplay _ _ E)].
        cbn [fst snd setRunning running streamRef set_video]. exists s.
        split; [reflexivity|].
        rewrite <- app_assoc, live_app, Hlive. reflexivity.
      * cbn [fst snd setRunning running streamRef]. exists s.
        split; [reflexivity|].
        rewrite live_app, Hlive. reflexivity.
    + cbn [fst snd failed setErr running streamRef]. rewrite Hoffered.
      split; [exact Hstream|].
      rewrite live_app. exact Hlive.
  - (* Capture *)
    rewrite captureFrame_same, captureFrame_live. exact Hin.
  - (* Stop *)
    rewrite stopCamera_off. apply (stopCamera_in_step c log Hin).
  - (* Unmount *)
    rewrite stopCamera_off. apply (stopCamera_in_step (set_video None c) log).
    exact Hin.
Qed.

Lemma session_in_step (actions : list Action) :
  (forall n e, play dev n <> RejectedWith e) ->
  forall c log c' log',
    in_step c log ->
    session dev actions c log = Some (c', log') ->
    in_step c' log'.
Proof.
  intros Hplay. induction actions as [|a actions IH]; intros c log c' log' Hin.
  - cbn. intros H. injection H as <- <-. exact Hin.
  - cbn [session]. destruct (offered c a) eqn:Hoffered; [|discriminate].
    pose proof (step_in_step a c log Hplay Hoffered Hin) as Hnext.
    destruct (step dev a c log) as [c1 log1]. apply IH. exact Hnext.
Qed.

(** X10: in a sequential session, where the user lets each handler come
    to its end before the next click, and as long as [play()] does not
    reject, the component holds the camera exactly while it says so: a
    [running] component holds a stream whose tracks are the live ones;
    one that is not [running] holds none and no track is live.  The
    cleanup at the unmount then leaves no track live. *)
Theorem session_releases (video : Video) (actions : list Action)
        (c : t) (log : list MediaEvent) :
  (forall n e, play dev n <> RejectedWith e) ->
  session dev actions (mounted video) [] = Some (c, log) ->
  (running c = true -> exists s, streamRef c = Some s /\ live log = s) /\
  (running c = false -> streamRef c = None /\ live log = []) /\
  live (snd (step dev Unmount c log)) = [].
Proof.
  intros Hplay Hrun.
  assert (Hin : in_step c log).
  { apply (session_in_step actions Hplay (mounted video) []); [|exact Hrun].
    split; reflexivity. }
  split; [|split].
  - intros Hr. unfold in_step in Hin. rewrite Hr in Hin. exact Hin.
  - intros Hr. unfold in_step in Hin. rewrite Hr in Hin. exact Hin.
  - cbn [step]. apply (stopCamera_in_step (set_video None c) log). exact Hin.
Qed.

(** X11: a rejected [play()] breaks this.  The component keeps the
    stream while it offers "Start Camera" again; the next start replaces
    the stream in [streamRef], and the tracks of the first one are
    stopped by no later "Stop" and not by the unmount either. *)
Theorem session_play_rejected_leaks (video : Video) (s1 s2 : MediaStream)
        (e : value) :
  getUserMedia dev 0 = Fulfilled s1 ->
  play dev 1 = RejectedWith e ->
  getUserMedia dev 2 = Fulfilled s2 ->
  (forall r, play dev 3 <> RejectedWith r) ->
  (forall tr, In tr s1 -> ~ In tr s2) ->
  exists c log,
    session dev [Start; Start; Stop; Unmount] (mounted video) []
    = Some (c, log) /\
    running c = false /\ streamRef c = None /\ live log = s1.
Proof.
  intros Hget1 Hplay1 Hget2 Hplay2 Hdisjoint.
  assert (E1 : startCamera dev (mounted video) []
               = ({| videoRef := Some (set_srcObject (Some s1) video);
                     streamRef := Some s1; running := false;
                     err := or_else (message e)
                              (VStr "Camera permission denied or unavailable") |},
                  [Acquired s1; Played])).
  { unfold startCamera. cbn [List.length]. rewrite Hget1.
    cbn [setErr set_streamRef videoRef mounted List.length app].
    rewrite Hplay1. reflexivity. }
  cbn [session]. cbn [offered mounted running negb]. cbn [step].
  rewrite E1. cbn [offered running negb step].
  unfold startCamera. cbn [List.length]. rewrite Hget2.
  cbn [setErr set_streamRef videoRef List.length app].
  destruct (play dev 3) as [[]|r]; [|destruct (Hplay2 r eq_refl)].
  cbn [setRunning running offered step].
  unfold stopCamera at 1.
  cbn [setRunning set_streamRef videoRef set_video streamRef running err
       offered].
  unfold stopCamera at 1.
  cbn [setRunning set_streamRef videoRef set_video streamRef running err].
  eexists _, _. split; [reflexivity|]. repeat split.
  rewrite live_app.
  change (live [Acquired s1; Played; Acquired s2; Played]) with (s1 ++ s2)%list.
  apply stop_others; [exact Hdisjoint|trivial].
Qed.

End CameraBoxFacts.

(** ** Concrete runs

    The statements above, on the reference host. *)

(** Runs a handler to its outcome, for a goal [exists st' log', run = _ /\ _]. *)
Ltac run := eexists _, _; split; [vm_compute; reflexivity|].

Example Math_round_ties :
  Math_round (SFdiv prec emax (num 5) (num 2)) = num 3 /\
  Math_round (SFdiv prec emax (num (-5)) (num 2)) = SFopp (num 2) /\
  Math_round (SFdiv prec emax (num (-1)) (num 2)) = S754_zero true /\
  Math_round (mul (SFdiv prec emax (num 285) (num 1000)) (num 100)) = num 28.
Proof. repeat split; reflexivity. Qed.

Example clamp01_examples :
  clamp01 (num 7) = num 1 /\ clamp01 (SFopp (num 3)) = num 0 /\
  clamp01 NaN = num 0 /\ clamp01 (S754_infinity false) = num 1 /\
  clamp01 Reference.one_quarter = Reference.one_quarter.
Proof. repeat split; reflexivity. Qed.

Example trim_example :
  trim (bytes [32; 9; 194; 160] ++ "so happy " ++ bytes [226; 128; 168; 10])
  = "so happy".
Proof. reflexivity. Qed.

Example split_example :
  segments {| hostname := "open.spotify.com"; pathname := "//album/42/" |}
  = ["album"; "42"].
Proof. reflexivity. Qed.

Example append_files_example :
  append_files ["a"; "b"; "c"] 0
  = [("files", "a", "frame0.jpg"); ("files", "b", "frame1.jpg");
     ("files", "c", "frame2.jpg")].
Proof. reflexivity. Qed.

Example MiniChart_example :
  MiniChart (Some [("sad", Reference.one_quarter); ("calm", num 0);
                   ("happy", Reference.three_quarters)])
  = Some [ {| bar_label := "happy"; bar_percent := num 75;
              bar_color := "#27d17f" |};
           {| bar_label := "sad"; bar_percent := num 25;
              bar_color := "#6ca3ff" |};
           {| bar_label := "calm"; bar_percent := num 0;
              bar_color := "#7bdff2" |} ].
Proof. reflexivity. Qed.

(** The chart of seven entries: six bars, the entry below 0 left out, the
    one above 1 at 100, the two equal ones in the order of the map. *)
Example MiniChart_seven :
  MiniChart (Some Reference.seven)
  = Some [ {| bar_label := "angry"; bar_percent := num 100;
              bar_color := "#ff6b6b" |};
           {| bar_label := "surprise"; bar_percent := num 100;
              bar_color := "#ffb84d" |};
           {| bar_label := "happy"; bar_percent := num 75;
              bar_color := "#27d17f" |};
           {| bar_label := "sad"; bar_percent := num 25;
              bar_color := "#6ca3ff" |};
           {| bar_label := "disgust"; bar_percent := num 25;
              bar_color := "#88d36f" |};
           {| bar_label := "calm"; bar_percent := num 0;
              bar_color := "#7bdff2" |} ].
Proof. reflexivity. Qed.

(** An item that is not of the declared type makes the filter throw, as
    [toLowerCase] is not a method of a number. *)
Example filteredList_untyped :
  filteredList Reference.toLowerCase workout
    [item "Gym Power Hour" "Spotify" "u"; VObj [("title", VNum (num 3))]]
  = Throw TypeError.
Proof. reflexivity. Qed.

Example reference_JSON_parse_examples :
  Reference.JSON_parse " [1, [2, -3], {}, null] "
  = Ok (VArr [VNum (num 1); VArr [VNum (num 2); VNum (SFopp (num 3))];
              VObj []; VNull])
  /\ Reference.JSON_parse "{oops" = Throw SyntaxError
  /\ Reference.JSON_parse "[1,]" = Throw SyntaxError
  /\ Reference.JSON_parse "" = Throw SyntaxError.
Proof. repeat split; reflexivity. Qed.

Lemma take_until_stops (c : ascii) (stops s : string) :
  occurs c stops = true -> occurs c (Reference.take_until stops s) = false.
Proof.
  intros H. induction s as [|d s IH]; simpl.
  - reflexivity.
  - destruct (occurs d stops) eqn:E; simpl.
    + reflexivity.
    + rewrite IH, orb_false_r.
      destruct (Ascii.eqb d c) eqn:Edc; [|reflexivity].
      apply Ascii.eqb_eq in Edc. subst d. congruence.
Qed.

Lemma reference_pathname_no_query (url : string) (u : URL) :
  Reference.new_URL url = Ok u -> occurs "?" (pathname u) = false.
Proof.
  unfold Reference.new_URL.
  destruct (strip _ url) as [rest|]; [|discriminate].
  destruct (Reference.take_until ":" _); [discriminate|].
  intros H. injection H as <-. cbn [pathname].
  pose proof (take_until_stops "?" "?#"
                (drop (String.length (Reference.take_until "/?#" rest)) rest)
                eq_refl) as Hq.
  destruct (Reference.take_until "?#" _); [reflexivity|exact Hq].
Qed.

Lemma reference_toLowerCase_ascii (s : string) :
  ascii_only s = true -> Reference.toLowerCase s = ascii_lower s.
Proof. reflexivity. Qed.

Lemma reference_JSON_parse_empty_array :
  Reference.JSON_parse "[]" = Ok (VArr []).
Proof. reflexivity. Qed.



(** C2 fails on the code: the response [{mood: "happy", confidence: 2}]
    puts 200 in the main confidence line, above 100, and the response
    [{mood: "happy", confidence: "high"}] puts [NaN] there. *)
Theorem confidence_percent_unclamped :
  (exists st' log',
      updateResults Reference.toLowerCase Reference.StringToNumber
                    Reference.clock
                    (VObj [("mood", VStr "happy"); ("confidence", VNum (num 2))])
                    Tab.upload (initial []) []
      = (Ok tt, st', log') /\
      confidence_line st' = Rendered (num 200) /\
      leb (num 200) (num 100) = false)
  /\ (exists st' log',
      updateResults Reference.toLowerCase Reference.StringToNumber
                    Reference.clock
                    (VObj [("mood", VStr "happy"); ("confidence", VStr "high")])
                    Tab.upload (initial []) []
      = (Ok tt, st', log') /\
      confidence_line st' = Rendered NaN).
Proof.
  split.
  - run. split; reflexivity.
  - run. reflexivity.
Qed.

(** The history of the reference session: the entry of the second result
    stands before the entry of the first. *)
Example record_all_example :
  map HistoryRow.mood
      (history (snd (fst (record_all Reference.toLowerCase
                            Reference.StringToNumber Reference.clock
                            [(VObj [("mood", VStr "Happy")], Tab.camera);
                             (VNull, Tab.text);
                             (VObj [("mood", VStr "Sad")], Tab.upload)]
                            (initial []) []))))
  = ["sad"; "happy"].
Proof. reflexivity. Qed.


(** C4, as stated, fails: this URL is not one of Spotify, its host being
    [open.spotify.com.evil.example], and it is given an embed. *)
Lemma toSpotifyEmbed_foreign_host :
  Reference.new_URL "https://open.spotify.com.evil.example/playlist/abc"
  = Ok {| hostname := "open.spotify.com.evil.example";
          pathname := "/playlist/abc" |}
  /\ toSpotifyEmbed Reference.new_URL
       "https://open.spotify.com.evil.example/playlist/abc"
     = Ok (Some "https://open.spotify.com/embed/playlist/abc").
Proof. split; reflexivity. Qed.

(** Three URLs through the reference parser: the playlist of the
    specification, an album with a longer path, and a host that is not
    Spotify. *)
Lemma toSpotifyEmbed_spec_witness :
  toSpotifyEmbed Reference.new_URL
    "https://open.spotify.com/playlist/37i9dQZF1DXcBWIGoYBM5M?si=abc"
  = Ok (Some "https://open.spotify.com/embed/playlist/37i9dQZF1DXcBWIGoYBM5M")
  /\ toSpotifyEmbed Reference.new_URL "https://open.spotify.com/album/42/tracks"
     = Ok (Some "https://open.spotify.com/embed/album/42")
  /\ toSpotifyEmbed Reference.new_URL "https://example.com/playlist/abc"
     = Ok None.
Proof.
  pose proof (toSpotifyEmbed_spec Reference.new_URL reference_pathname_no_query)
    as [Hembed [Hexample Hforeign]].
  split; [|split].
  - apply Hexample. reflexivity.
  - apply (Hembed _ {| hostname := "open.spotify.com";
                       pathname := "/album/42/tracks" |} "album" "42" ["tracks"]);
      reflexivity.
  - apply Hforeign. intros u H. vm_compute in H. injection H as <-. reflexivity.
Defined.

(** A [mood] that is not a string stops [updateResults] before it sets
    anything. *)
Example updateResults_mood_not_string :
  updateResults Reference.toLowerCase Reference.StringToNumber Reference.clock
    (VObj [("mood", VNum (num 5)); ("confidence", VNum (num 1))])
    Tab.camera (initial []) []
  = (Throw TypeError, initial [], []).
Proof. reflexivity. Qed.

(** The label [constructor] finds a function on [Object.prototype], not a
    glyph: the history entry holds it, and it is not stored as it is in
    the emoji cell. *)
Example updateResults_inherited_emoji :
  option_map HistoryRow.emoji
    (hd_error (history (updated Reference.StringToNumber
                          (VObj [("mood", VStr "constructor")])
                          Tab.camera "constructor" (Reference.clock 0)
                          (initial []))))
  = Some (VBuiltin "constructor")
  /\ stored_as_is (VBuiltin "constructor") = false.
Proof. split; reflexivity. Qed.



(** The history over a corrupt store and over an empty store. *)
Lemma initial_history_empty_witness :
  initial_history Reference.JSON_parse Reference.corrupt_storage = Ok (VArr [])
  /\ initial_history Reference.JSON_parse (fun _ => None) = Ok (VArr []).
Proof.
  split.
  - apply (initial_history_empty Reference.JSON_parse
             reference_JSON_parse_empty_array).
    right. exists "{oops", SyntaxError. split; reflexivity.
  - apply (initial_history_empty Reference.JSON_parse
             reference_JSON_parse_empty_array).
    left. reflexivity.
Defined.



(** The two titles of the specification under "chill", and a list of one
    item under "focus". *)
Lemma filteredList_spec_witness :
  filteredList Reference.toLowerCase chill
    [ item "Deep Focus Study" "Spotify" "https://open.spotify.com/playlist/a";
      item "Relax & Chill Vibes" "Spotify" "https://open.spotify.com/playlist/b" ]
  = Ok [ item "Relax & Chill Vibes" "Spotify" "https://open.spotify.com/playlist/b" ]
  /\ exists keep,
      filteredList Reference.toLowerCase focus
        [ item "Deep Focus Study" "Spotify" "https://open.spotify.com/playlist/a" ]
      = Ok (filter keep
              [ item "Deep Focus Study" "Spotify" "https://open.spotify.com/playlist/a" ]).
Proof.
  pose proof (filteredList_spec Reference.toLowerCase reference_toLowerCase_ascii)
    as [_ [Hkeep Hexample]].
  split; [apply Hexample|].
  destruct (Hkeep focus
              [ item "Deep Focus Study" "Spotify" "https://open.spotify.com/playlist/a" ])
    as [keep [Hrun _]].
  - discriminate.
  - intros it [<-|[]]. exists "Deep Focus Study". reflexivity.
  - exists keep. exact Hrun.
Defined.

(** [analyzeText] on a text of three spaces. *)
Lemma analyzeText_blank_witness :
  analyzeText Reference.toLowerCase Reference.StringToNumber
              Reference.server_down Reference.clock
              (setText "   " (initial [])) []
  = (Ok tt, setText "   " (initial []), []).
Proof.
  apply (analyzeText_blank Reference.toLowerCase Reference.StringToNumber
           Reference.server_down Reference.clock
           (setText "   " (initial [])) []).
  apply (blank_space " " "  "); [simpl; tauto|].
  apply (blank_space " " " "); [simpl; tauto|].
  apply (blank_space " " ""); [simpl; tauto|].
  apply blank_empty.
Defined.

(** ** Concrete runs of the further properties *)

(** A text with spaces around it goes out as typed. *)
Lemma analyzeText_sends_once_witness :
  requests (snd (analyzeText Reference.toLowerCase Reference.StringToNumber
                   Reference.server_down Reference.clock
                   (setText " so happy " (initial [])) []))
  = [text_request " so happy "].
Proof.
  apply (analyzeText_sends_once Reference.toLowerCase Reference.StringToNumber
           Reference.server_down Reference.clock
           (setText " so happy " (initial [])) [] eq_refl).
Defined.



(** Stopping a running camera frees its track. *)
Lemma stopCamera_releases_witness :
  live (snd (CameraBox.stopCamera
               {| CameraBox.videoRef := Some Reference.video;
                  CameraBox.streamRef := Some [7%nat];
                  CameraBox.running := true;
                  CameraBox.err := VNull |}
               [Acquired [7%nat]; Played]))
  = [].
Proof.
  apply (proj1 (proj2 (proj2 (proj2 (proj2 (proj2
           (stopCamera_releases
              {| CameraBox.videoRef := Some Reference.video;
                 CameraBox.streamRef := Some [7%nat];
                 CameraBox.running := true;
                 CameraBox.err := VNull |}
              [Acquired [7%nat]; Played]))))))).
  intros tr Htr. exists [7%nat]. split; [reflexivity|exact Htr].
Defined.

(** A camera that is not allowed leaves the component off, with the
    message of the rejection. *)
Lemma startCamera_ends_witness :
  CameraBox.error_shown
    (fst (CameraBox.startCamera Reference.camera_denied
            (CameraBox.mounted Reference.video) []))
  = negb (CameraBox.running
            (fst (CameraBox.startCamera Reference.camera_denied
                    (CameraBox.mounted Reference.video) []))).
Proof.
  apply (startCamera_ends Reference.camera_denied
           (CameraBox.mounted Reference.video) [] eq_refl).
Defined.

Lemma startCamera_play_rejected_witness :
  live (snd (CameraBox.startCamera Reference.camera_stalls
               (CameraBox.mounted Reference.video) []))
  = [0%nat].
Proof.
  apply (startCamera_play_rejected Reference.camera_stalls
           (CameraBox.mounted Reference.video) [] Reference.video [0%nat]
           (VObj []) eq_refl eq_refl eq_refl).
Defined.

(** Start, capture, stop, start again, then the unmount. *)
Lemma session_releases_witness :
  exists c log,
    CameraBox.session Reference.camera
      [CameraBox.Start; CameraBox.Capture; CameraBox.Stop; CameraBox.Start]
      (CameraBox.mounted Reference.video) [] = Some (c, log) /\
    live (snd (CameraBox.step Reference.camera CameraBox.Unmount c log)) = [].
Proof.
  eexists _, _. split; [vm_compute; reflexivity|].
  apply (proj2 (proj2 (session_releases Reference.camera Reference.video
           [CameraBox.Start; CameraBox.Capture; CameraBox.Stop; CameraBox.Start]
           _ _ (fun n e H => eq_ind (Fulfilled tt)
                               (fun s => match s with
                                         | Fulfilled _ => True
                                         | RejectedWith _ => False
                                         end) I _ H)
           eq_refl))).
Defined.

Lemma session_play_rejected_leaks_witness :
  exists c log,
    CameraBox.session Reference.camera_stalls
      [CameraBox.Start; CameraBox.Start; CameraBox.Stop; CameraBox.Unmount]
      (CameraBox.mounted Reference.video) [] = Some (c, log) /\
    CameraBox.running c = false /\ CameraBox.streamRef c = None /\
    live log = [0%nat].
Proof.
  apply (session_play_rejected_leaks Reference.camera_stalls Reference.video
           [0%nat] [2%nat] (VObj [])); try reflexivity.
  - intros r H. discriminate H.
  - intros tr [<-|[]] [H|[]]. discriminate H.
Defined.

(** Three draws of which the second could not be encoded: two frames go
    to the service. *)
Lemma captureAndAnalyze_frames_witness :
  captureAndAnalyze Reference.toLowerCase Reference.StringToNumber
    Reference.server_down Reference.clock Reference.camera_stalls
    {| videoRef := Some Reference.video; streamRef := Some [0%nat] |} []
    (initial []) []
  = (Ok ({| videoRef := Some Reference.video; streamRef := Some [0%nat] |},
         [Drew 1280 720; Drew 1280 720; Drew 1280 720]),
     snd (fst (analyzeImagesBlobs Reference.toLowerCase
                 Reference.StringToNumber Reference.server_down
                 Reference.clock ["jpeg-1"; "jpeg-3"] Tab.camera
                 (initial []) [])),
     snd (analyzeImagesBlobs Reference.toLowerCase Reference.StringToNumber
            Reference.server_down Reference.clock ["jpeg-1"; "jpeg-3"]
            Tab.camera (initial []) [])).
Proof.
  apply (proj2 (captureAndAnalyze_frames Reference.toLowerCase
                  Reference.StringToNumber Reference.server_down
                  Reference.clock Reference.camera_stalls
                  {| videoRef := Some Reference.video;
                     streamRef := Some [0%nat] |} [] (initial []) [])
               Reference.video eq_refl eq_refl).
Defined.

Lemma startCamera_toast_witness :
  camera_error Reference.ToString
    (VObj [("name", VStr "NotAllowedError");
           ("message", VStr "Permission denied")])
  = "Camera error: Permission denied"
  /\ camera_error Reference.ToString (VObj [])
     = "Camera error: permission denied".
Proof.
  pose proof (startCamera_toast Reference.ToString (fun s => eq_refl)
                Reference.camera_denied
                {| videoRef := Some Reference.video; streamRef := None |} []
                (initial []) []) as [_ [_ [_ [Hmessage Hdefault]]]].
  split.
  - apply (Hmessage (VObj [("name", VStr "NotAllowedError");
                           ("message", VStr "Permission denied")])
             "Permission denied" eq_refl).
    discriminate.
  - apply (Hdefault (VObj []) eq_refl).
Defined.

Lemma camera_session_held_witness :
  exists outcome refs' media',
    camera_session Reference.toLowerCase Reference.StringToNumber
      Reference.ToString
      (Reference.server_replies (VObj [("mood", VStr "Happy")]))
      Reference.clock Reference.camera
      [StartCamera; CaptureAndAnalyze; StopCamera]
      {| videoRef := Some Reference.video; streamRef := None |} []
      (initial []) [] = Some outcome /\
    fst (fst outcome) = Ok (refs', media') /\
    camera_in_step (snd (fst outcome)) refs' media' /\
    loading (snd (fst outcome)) = false.
Proof.
  assert (Hrun : {outcome |
            camera_session Reference.toLowerCase Reference.StringToNumber
              Reference.ToString
              (Reference.server_replies (VObj [("mood", VStr "Happy")]))
              Reference.clock Reference.camera
              [StartCamera; CaptureAndAnalyze; StopCamera]
              {| videoRef := Some Reference.video; streamRef := None |} []
              (initial []) [] = Some outcome}).
  { eexists. vm_compute. reflexivity. }
  destruct Hrun as [outcome Hrun]. exists outcome.
  assert (Hplay : forall n e, play Reference.camera n <> RejectedWith e)
    by (intros n e H; discriminate H).
  assert (Hin : camera_in_step (initial [])
                  {| videoRef := Some Reference.video; streamRef := None |} [])
    by (split; reflexivity).
  destruct (camera_session_held Reference.toLowerCase Reference.StringToNumber
              Reference.ToString
              (Reference.server_replies (VObj [("mood", VStr "Happy")]))
              Reference.clock Reference.camera
              [StartCamera; CaptureAndAnalyze; StopCamera] Hplay
              {| videoRef := Some Reference.video; streamRef := None |} []
              (initial []) [] outcome Hin eq_refl Hrun)
    as [refs' [media' H]].
  exists refs', media'. split; [exact Hrun|exact H].
Defined.

Lemma append_files_entries_witness :
  nth_error (append_files Reference.frames 0) 2
  = Some ("files", "frame-c", "frame2.jpg").
Proof.
  apply (proj1 (proj2 (proj2 (append_files_entries Reference.frames)))).
  reflexivity.
Defined.

(** A response without a mood: a "neutral" entry in the history, the
    placeholder in the results panel. *)
Lemma updateResults_view_witness :
  exists st' log' row,
    updateResults Reference.toLowerCase Reference.StringToNumber Reference.clock
      (VObj [("confidence", VNum Reference.three_quarters)])
      Tab.upload (initial []) [] = (Ok tt, st', log') /\
    hd_error (history st') = Some row /\
    HistoryRow.mood row = "neutral" /\
    emoji st' = HistoryRow.emoji row /\
    confidence_line st' = NotRendered.
Proof.
  eexists _, _.
  assert (Hrun : updateResults Reference.toLowerCase Reference.StringToNumber
                   Reference.clock
                   (VObj [("confidence", VNum Reference.three_quarters)])
                   Tab.upload (initial []) [] = (Ok tt, _, _))
    by (vm_compute; reflexivity).
  destruct (updateResults_view Reference.toLowerCase Reference.StringToNumber
              Reference.clock _ _ _ _ _ _ Hrun)
    as [_ [row [Hhd [_ [_ [Hstored Hneutral]]]]]].
  exists row. split; [exact Hrun|]. split; [exact Hhd|].
  destruct (Hneutral eq_refl) as [Hmood [Hline _]].
  split; [exact Hmood|]. split; [|exact Hline].
  apply Hstored. injection Hhd as <-. reflexivity.
Defined.



Lemma clamp01_cases_witness :
  clamp01 (num 5) = num 1 /\ clamp01 Reference.three_quarters = Reference.three_quarters.
Proof.
  split.
  - apply (proj1 (proj2 (proj2 (proj2 (clamp01_cases (num 5)))))).
    reflexivity.
  - apply (proj1 (proj2 (proj2 (clamp01_cases Reference.three_quarters))));
      reflexivity.
Defined.

Lemma chart_entries_sorted_witness :
  sort_by by_probability
    [("happy", Reference.three_quarters); ("sad", Reference.one_quarter);
     ("calm", Reference.one_quarter)]
  = [("happy", Reference.three_quarters); ("sad", Reference.one_quarter);
     ("calm", Reference.one_quarter)].
Proof.
  assert (Hproper : proper_entries
                      [("happy", Reference.three_quarters);
                       ("sad", Reference.one_quarter);
                       ("calm", Reference.one_quarter)])
    by (repeat constructor).
  apply (proj1 (chart_entries_sorted
                  [("happy", Reference.three_quarters);
                   ("sad", Reference.one_quarter);
                   ("calm", Reference.one_quarter)] Hproper)).
  repeat constructor.
Defined.

Lemma filteredList_untyped_items_witness :
  filteredList Reference.toLowerCase chill
    [item "Relax & Chill Vibes" "Spotify" "https://open.spotify.com/playlist/b";
     VNull]
  = Throw TypeError.
Proof.
  apply (proj1 (filteredList_untyped_items Reference.toLowerCase
                  reference_toLowerCase_ascii chill
                  [item "Relax & Chill Vibes" "Spotify"
                        "https://open.spotify.com/playlist/b"; VNull]
                  ltac:(discriminate))).
  exists VNull. split; [right; left; reflexivity|reflexivity].
Defined.

Lemma toSpotifyEmbed_shape_witness :
  toSpotifyEmbed Reference.new_URL "https://open.spotify.com/playlist" = Ok None.
Proof.
  apply (proj2 (proj1 (toSpotifyEmbed_shape Reference.new_URL
                         reference_pathname_no_query
                         "https://open.spotify.com/playlist"))).
  intros u Hu. right. vm_compute in Hu. injection Hu as <-.
  vm_compute. lia.
Defined.

(** A stored [null] becomes the history. *)
Lemma initial_history_trusts_witness :
  initial_history Reference.JSON_parse
    (fun key => if String.eqb key "mood_history" then Some "null" else None)
  = Ok VNull.
Proof.
  apply (proj1 (proj2 (initial_history_trusts Reference.JSON_parse
                         reference_JSON_parse_empty_array
                         (fun key => if String.eqb key "mood_history"
                                     then Some "null" else None)))
               "null" VNull eq_refl).
  - discriminate.
  - reflexivity.
Defined.

Lemma background_gradient_witness :
  background "" = VStr "linear-gradient(-45deg,#0b0b12,#121225,#171733,#10101a)"
  /\ background "sad" = VStr "linear-gradient(-45deg,#2c3e50,#4ca1af,#2b5876,#4e4376)"
  /\ background "constructor" = VBuiltin "constructor"
  /\ In (background "positive") (map snd MOOD_GRADIENT).
Proof.
  split; [|split; [|split]].
  - apply (proj1 (proj2 (proj2 (background_gradient "")))); reflexivity.
  - apply (proj1 (proj2 (background_gradient "sad"))). reflexivity.
  - apply (proj1 (proj2 (proj2 (proj2 (background_gradient "constructor"))))).
    discriminate.
  - apply (proj1 (proj2 (proj2 (proj2 (proj2
             (background_gradient "positive")))))).
    reflexivity.
Defined.

Lemma requests_are_posts_witness :
  method (text_request " so happy ") = "POST" /\
  startsWith (url (text_request " so happy "))
    "http://127.0.0.1:8000/api/predict/" = true.
Proof.
  destruct (requests_are_posts Reference.toLowerCase Reference.StringToNumber
              Reference.server_down Reference.clock Reference.frames
              Tab.camera (setText " so happy " (initial [])) []
              (text_request " so happy ")
              (or_introl (or_introl eq_refl))) as [[]|H].
  exact H.
Defined.

